(** * django_dynamic_filter: declarative, session-backed query filters

    A shallow embedding of [django_dynamic_filter/__init__.py] and the
    properties of its field hooks, of the two metaclasses and of the
    per-request filter instance.

    Python objects that the module only passes around are modelled by the
    part of their behaviour the module observes: truthiness, the [pk] and
    [__name__] attributes, [isinstance] against the Django form field type.
    Django itself (forms, sessions, querysets) is an external collaborator;
    the few operations of it that the module calls are modelled after their
    documented contract and are marked as such. *)

From Stdlib Require Import ZArith Lia.
From stdpp Require Import gmap strings list fin_maps functions sorting.

Local Open Scope Z_scope.
Local Open Scope string_scope.

(** ** Python values, exceptions *)

Module Py.

(** The values that flow through a filter: what a form field cleans to,
    what is kept in the session, and model instances (which this module
    only ever asks for their primary key). *)
Inductive PyVal : Type :=
| VNone
| VBool (b : bool)
| VInt (z : Z)
| VStr (s : string)
| VModel (pk : PyVal).

#[export] Instance PyVal_eq_dec : EqDecision PyVal.
Proof. solve_decision. Defined.

(** [bool(v)]: None, False, 0 and the empty string are falsy; a model
    instance defines neither [__bool__] nor [__len__] and is truthy. *)
Definition truthy (v : PyVal) : bool :=
  match v with
  | VNone => false
  | VBool b => b
  | VInt z => negb (z =? 0)%Z
  | VStr s => negb (String.eqb s "")
  | VModel _ => true
  end.

Inductive exn : Type :=
| KeyError (key : string)
| AttributeError (attr : string)
| ValueError (msg : string)
| TypeError (msg : string)
| DoesNotExist
| MultipleObjectsReturned.

#[export] Instance exn_eq_dec : EqDecision exn.
Proof. solve_decision. Defined.

(** A call either returns or raises. *)
Inductive result (A : Type) : Type :=
| Ret (a : A)
| Raise (e : exn).
Arguments Ret {A} a.
Arguments Raise {A} e.

#[export] Instance result_ret : MRet result := @Ret.
#[export] Instance result_bind : MBind result := fun A B k m =>
  match m with
  | Ret a => k a
  | Raise e => Raise e
  end.

Definition returns {A} (m : result A) : bool :=
  match m with Ret _ => true | Raise _ => false end.

(** [option] truthiness of an optional string attribute: [None] and [""]
    are both falsy. *)
Definition str_set (o : option string) : bool :=
  match o with
  | Some s => negb (String.eqb s "")
  | None => false
  end.

(** [str.format] of an optional string: [None] prints as ["None"]. *)
Definition fmt (o : option string) : string :=
  match o with
  | Some s => s
  | None => "None"
  end.

End Py.
Export Py.

(** ** Field types: options, validation, hooks *)

Module Fields.

(** Addresses of form field objects and of field option objects. Both
    kinds of object are mutated in place and may be shared. *)
Definition floc := nat.
Definition mloc := nat.

(** What [Meta.field] may hold when a field type is declared. *)
Inductive Descriptor : Type :=
| DFormField (l : floc)        (* an instance of django.forms.Field *)
| DClass (cls_name : string)   (* a class or function: truthy, has __name__ *)
| DValue (v : PyVal).          (* any other object; None when unset *)

Definition descr_truthy (d : Descriptor) : bool :=
  match d with
  | DFormField _ => true
  | DClass _ => true
  | DValue v => truthy v
  end.

Definition descr_name (d : Descriptor) : result string :=
  match d with
  | DClass n => Ret n
  | DFormField _ | DValue _ => Raise (AttributeError "__name__")
  end.

(** The attributes of an inner [class Meta], read with
    [getattr(options, attr, default)]: an absent attribute shows as its
    default. [Meta.queryset] is known by the rows it yields, and by whether
    the object is a manager such as [Model.objects] rather than a queryset:
    the two differ in their truth value. *)
Record Meta : Type := mkMeta {
  Meta_field : Descriptor;
  Meta_operator : option string;
  Meta_force_empty : bool;
  Meta_name : option string;
  Meta_queryset : option (list PyVal);
  Meta_queryset_is_manager : bool
}.

(** [FieldOptions] / [ModelFieldOptions]. [D] is what is known of the
    [field] attribute: a raw [Descriptor] when the options are built,
    the address of a form field once [check_field_options] has passed.
    A queryset is modelled by the primary keys of the rows it yields when
    it is evaluated. *)
Record FieldOptions (D : Type) : Type := mkFieldOptions {
  field : D;
  operator : option string;
  force_empty : bool;
  name : option string;
  queryset : option (list PyVal)
}.
Arguments mkFieldOptions {D} _ _ _ _ _.
Arguments field {D} _.
Arguments operator {D} _.
Arguments force_empty {D} _.
Arguments name {D} _.
Arguments queryset {D} _.

(** [FieldOptions.__init__]; the plain options have no queryset. *)
Definition FieldOptions_init (options : option Meta) : FieldOptions Descriptor :=
  match options with
  | Some m => mkFieldOptions (Meta_field m) (Meta_operator m)
                             (Meta_force_empty m) (Meta_name m) None
  | None => mkFieldOptions (DValue VNone) None false None None
  end.

(** [ModelFieldOptions.__init__]. *)
Definition ModelFieldOptions_init (options : option Meta) : FieldOptions Descriptor :=
  let o := FieldOptions_init options in
  mkFieldOptions (field o) (operator o) (force_empty o) (name o)
                 (match options with Some m => Meta_queryset m | None => None end).

(** [check_field_options]; on success the descriptor is known to be a form
    field, whose address is returned. The arguments of [str.format] are
    evaluated before the exception is built. *)
Definition check_field_options (cls_name : string) (opts : FieldOptions Descriptor)
  : result floc :=
  if negb (descr_truthy (field opts)) then
    Raise (ValueError (cls_name ++ ".Meta.field have to be specified."))
  else
    match field opts with
    | DFormField l => Ret l
    | d =>
        _ ← descr_name d;
        Raise (TypeError (cls_name
                 ++ ".Meta.field have to a valid Django Field, cannot be a {type}"))
    end.

Definition validated (opts : FieldOptions Descriptor) (l : floc) : FieldOptions floc :=
  mkFieldOptions l (operator opts) (force_empty opts) (name opts) (queryset opts).

Definition is_marker (bases : list string) : bool :=
  bool_decide (bases = ["BaseField"]).

(** [FieldMetaClass.__new__]: the [_meta] of the new class, or nothing for
    the marker type. *)
Definition FieldMetaClass_new (cls_name : string) (bases : list string)
    (options : option Meta) : result (option (FieldOptions floc)) :=
  if is_marker bases then Ret None
  else
    let opts := FieldOptions_init options in
    l ← check_field_options cls_name opts;
    Ret (Some (validated opts l)).

(** [bool(opts.queryset)]: [None] is falsy; a manager defines neither
    [__bool__] nor [__len__] and is truthy; a queryset is evaluated and is
    truthy when it yields a row. *)
Definition queryset_truthy (is_manager : bool) (q : option (list PyVal)) : bool :=
  match q with
  | None => false
  | Some rows => is_manager || match rows with [] => false | _ :: _ => true end
  end.

Definition options_is_manager (options : option Meta) : bool :=
  match options with
  | Some m => Meta_queryset_is_manager m
  | None => false
  end.

(** [ModelFieldMetaClass.__new__], which first runs its parent. *)
Definition ModelFieldMetaClass_new (cls_name : string) (bases : list string)
    (options : option Meta) : result (option (FieldOptions floc)) :=
  _ ← FieldMetaClass_new cls_name bases options;
  if is_marker bases then Ret None
  else
    let opts := ModelFieldOptions_init options in
    l ← check_field_options cls_name opts;
    if negb (queryset_truthy (options_is_manager options) (queryset opts)) then
      Raise (ValueError "Queryset has to be specified.")
    else Ret (Some (validated opts l)).

(** External collaborator (Django): [QuerySet.get(pk=key)] returns the one
    matching row, raises [DoesNotExist] when there is none and
    [MultipleObjectsReturned] when there are several. *)
Definition QuerySet_get (rows : list PyVal) (key : PyVal) : result PyVal :=
  match filter (fun k => k = key) rows with
  | [] => Raise DoesNotExist
  | [k] => Ret (VModel k)
  | _ => Raise MultipleObjectsReturned
  end.

(** Which class gives a field instance its hooks. *)
Inductive FieldKind : Type :=
| Plain       (* Field: the hooks of BaseField *)
| Reference.  (* ModelField *)

#[export] Instance FieldKind_eq_dec : EqDecision FieldKind.
Proof. solve_decision. Defined.

(** [BaseField.render_operator]. With no name the key is Python's [None],
    here the [None] of [option]. *)
Definition render_operator {D} (o : FieldOptions D) : option string :=
  if negb (str_set (operator o)) then name o
  else Some (fmt (name o) ++ "__" ++ fmt (operator o)).

(** [BaseField.render_value]. *)
Definition render_value (value : PyVal) : PyVal := value.

(** [getattr(value, 'pk')]. *)
Definition get_pk (value : PyVal) : result PyVal :=
  match value with
  | VModel k => Ret k
  | _ => Raise (AttributeError "pk")
  end.

(** [BaseField.store] and [ModelField.store]. *)
Definition store (k : FieldKind) (value : PyVal) : result PyVal :=
  match k with
  | Plain => Ret value
  | Reference => if truthy value then get_pk value else Ret VNone
  end.

(** [BaseField.unstore] and [ModelField.unstore]. A [ModelField] class
    always has a queryset; [rows] is what it yields now. *)
Definition unstore {D} (k : FieldKind) (o : FieldOptions D) (value : PyVal)
  : result PyVal :=
  match k with
  | Plain => Ret value
  | Reference =>
      if truthy value then QuerySet_get (default [] (queryset o)) value
      else Ret VNone
  end.

End Fields.
Export Fields.

(** ** Filter types: collection and ordering of the declared fields *)

Module Registry.

(** External collaborator (Django): the attributes of a form field that
    the module reads or writes. [creation_counter] is given to a form
    field when it is constructed and grows with every construction. *)
Record FormField : Type := mkFormField {
  creation_counter : Z;
  initial : PyVal;
  required : bool
}.

(** The objects that are shared and mutated in place: the options of the
    field classes and their form fields, by address. Every field class in
    use has passed [check_field_options], so both stores are total. *)
Abbreviation MetaHeap := (mloc → FieldOptions floc).
Abbreviation FormHeap := (floc → FormField).

(** A field instance: its class gives it the hooks and, as a class
    attribute, the options object [_meta]. *)
Record FieldInst : Type := mkFieldInst {
  kind : FieldKind;
  meta : mloc
}.

#[export] Instance FieldInst_eq_dec : EqDecision FieldInst.
Proof. solve_decision. Defined.

(** The value of an attribute of a class body: an instance of a declared
    field class; anything that is no field (a method, the inner Meta, ...);
    or an instance of [BaseField], [Field] or [ModelField] themselves, which
    is a [BaseField] but has no [_meta]. *)
Inductive ClassAttr : Type :=
| AField (f : FieldInst)
| AOther
| ABareField.

(** [collections.OrderedDict]: item assignment keeps the position of a key
    that is already there. *)
Fixpoint od_set {V} (k : string) (v : V) (d : list (string * V)) : list (string * V) :=
  match d with
  | [] => [(k, v)]
  | (k', v') :: d' =>
      if decide (k = k') then (k, v) :: d' else (k', v') :: od_set k v d'
  end.

Definition OrderedDict {V} (items : list (string * V)) : list (string * V) :=
  foldl (fun d kv => od_set kv.1 kv.2 d) [] items.

Fixpoint od_get {V} (d : list (string * V)) (k : string) : option V :=
  match d with
  | [] => None
  | (k', v) :: d' => if decide (k = k') then Some v else od_get d' k
  end.

Definition set_name (key : string) (o : FieldOptions floc) : FieldOptions floc :=
  mkFieldOptions (field o) (operator o) (force_empty o) (Some key) (queryset o).

(** [if not value._meta.name: value._meta.name = key] *)
Definition register_name (key : string) (f : FieldInst) (hm : MetaHeap) : MetaHeap :=
  if negb (str_set (name (hm (meta f)))) then <[meta f := set_name key (hm (meta f))]> hm
  else hm.

(** The loop over [list(attrs.items())]: the fields found, in the order of
    the attributes, and the options store after the names are assigned.
    Reading [value._meta] of a field instance that has none is an
    AttributeError, which ends the loop with the names assigned so far. *)
Fixpoint collect_fields (attrs : list (string * ClassAttr)) (hm : MetaHeap)
  : result (list (string * FieldInst)) * MetaHeap :=
  match attrs with
  | [] => (Ret [], hm)
  | (key, AField f) :: rest =>
      let '(r, hm') := collect_fields rest (register_name key f hm) in
      (fs ← r; Ret ((key, f) :: fs), hm')
  | (_, AOther) :: rest => collect_fields rest hm
  | (_, ABareField) :: rest => (Raise (AttributeError "_meta"), hm)
  end.

(** [attrs.pop(key)] for every field found. *)
Definition remaining_attrs (attrs : list (string * ClassAttr)) : list (string * ClassAttr) :=
  List.filter (fun kv => match kv.2 with
                         | AField _ | ABareField => false
                         | AOther => true
                         end) attrs.

(** The field instances of a class body, in the order of the attributes,
    which is the order in which the body constructed them. *)
Definition body_fields (attrs : list (string * ClassAttr)) : list (string * FieldInst) :=
  omap (fun kv => match kv.2 with
                  | AField f => Some (kv.1, f)
                  | AOther | ABareField => None
                  end) attrs.

(** Every field instance of the body is an instance of a declared field
    class. *)
Definition declared_only (attrs : list (string * ClassAttr)) : Prop :=
  ∀ k, (k, ABareField) ∉ attrs.

(** [list.sort(key=...)] is stable; so is insertion from the right, which
    puts an element before the first one whose key is not smaller. *)
Fixpoint insert_by {A} (key : A → Z) (x : A) (l : list A) : list A :=
  match l with
  | [] => [x]
  | y :: l' => if (key x <=? key y)%Z then x :: y :: l' else y :: insert_by key x l'
  end.

Definition sort_by {A} (key : A → Z) (l : list A) : list A :=
  foldr (insert_by key) [] l.

(** [lambda x: x[1]._meta.field.creation_counter] *)
Definition counter_of (hm : MetaHeap) (hf : FormHeap) (x : string * FieldInst) : Z :=
  creation_counter (hf (field (hm (meta x.2)))).

(** What [Meta.model] may hold when a filter type is declared. *)
Inductive ModelOption : Type :=
| ModelClass (cls_name : string)   (* a Django model: instance of ModelBase *)
| OtherClass (cls_name : string)   (* another class or function *)
| OtherValue (v : PyVal).          (* any other object; None when unset *)

Definition model_truthy (m : ModelOption) : bool :=
  match m with
  | ModelClass _ | OtherClass _ => true
  | OtherValue v => truthy v
  end.

Definition model_name (m : ModelOption) : result string :=
  match m with
  | ModelClass n | OtherClass n => Ret n
  | OtherValue _ => Raise (AttributeError "__name__")
  end.

(** A declared filter: [name], [_meta.model], [_meta.base_fields]. *)
Record Filter : Type := mkFilter {
  filter_name : string;
  filter_model : string;
  base_fields : list (string * FieldInst)
}.

(** The class made by the metaclass: its remaining attributes, and the
    filter data unless it is the marker type. *)
Record FilterClass : Type := mkFilterClass {
  cls_attrs : list (string * ClassAttr);
  cls_filter : option Filter
}.

Definition is_filter_marker (bases : list string) : bool :=
  bool_decide (bases = ["BaseDynamicFilter"]).

Definition check_model (cls_name : string) (m : ModelOption) : result string :=
  if negb (model_truthy m) then
    Raise (ValueError (cls_name ++ ".Meta.model cannot be a null."))
  else
    match m with
    | ModelClass n => Ret n
    | _ =>
        t ← model_name m;
        Raise (TypeError (cls_name
                 ++ ".Meta.model have to be a valid Django Model, cannot be a " ++ t))
    end.

(** [DynamicFilterMetaClass.__new__]. [model] is [Meta.model] as
    [getattr] finds it on the new class. The names are assigned before
    anything is checked, so the options store is returned in every case. *)
Definition DynamicFilterMetaClass_new (cls_name : string) (bases : list string)
    (attrs : list (string * ClassAttr)) (model : ModelOption)
    (hm : MetaHeap) (hf : FormHeap) : result FilterClass * MetaHeap :=
  match collect_fields attrs hm with
  | (Raise e, hm') => (Raise e, hm')
  | (Ret found, hm') =>
      let current_fields := OrderedDict (sort_by (counter_of hm' hf) found) in
      let attrs' := remaining_attrs attrs in
      if is_filter_marker bases then (Ret (mkFilterClass attrs' None), hm')
      else
        (m ← check_model cls_name model;
         Ret (mkFilterClass attrs' (Some (mkFilter cls_name m current_fields))),
         hm')
  end.

End Registry.
Export Registry.

(** ** Filter instances: one per request *)

Module Instance.

Abbreviation Values := (gmap string PyVal).
Abbreviation Kwargs := (gmap (option string) PyVal).

(** External collaborator (Django): the session of the request, a mapping
    with a dirty flag. Deleting or assigning an item sets the flag;
    changing a stored mapping in place does not. *)
Record Session : Type := mkSession {
  data : gmap string (gmap string PyVal);
  modified : bool
}.

Definition session_contains (s : Session) (k : string) : bool :=
  bool_decide (is_Some (data s !! k)).

Definition session_get (s : Session) (k : string) (dflt : Values) : Values :=
  default dflt (data s !! k).

(** [del session[k]]; the one caller has checked that [k] is there. *)
Definition session_del (s : Session) (k : string) : Session :=
  mkSession (delete k (data s)) true.

Definition session_set (s : Session) (k : string) (v : Values) : Session :=
  mkSession (<[k := v]> (data s)) true.

(** [session.modified = True] *)
Definition set_modified (s : Session) : Session :=
  mkSession (data s) true.

Record Request : Type := mkRequest {
  method : string;
  GET : gmap string string;
  POST : list (string * string)
}.

(** What a request changes: the session and the [values] dict of the
    instance. [shared] tells that [values] is the very dict that the
    session holds under the filter's name, so that a write to it is a
    write to the session entry. *)
Record Store : Type := mkStore {
  session : Session;
  values : Values;
  shared : bool
}.

Definition write_values (fname : string) (vs : Values) (s : Store) : Store :=
  mkStore
    (if shared s then mkSession (<[fname := vs]> (data (session s))) (modified (session s))
     else session s)
    vs (shared s).

(** Lines 166-173 of [__init__]: the flags, and [values] with the session
    as this step leaves it. *)
Definition resolve_state (fname : string) (req : Request) (sess : Session)
  : bool * bool * Store :=
  let first_init := negb (session_contains sess fname) in
  let is_reset := bool_decide (GET req !! "reset_filter" = Some fname) in
  if first_init || is_reset then
    (first_init, is_reset,
     mkStore (if negb first_init && is_reset then session_del sess fname else sess)
             ∅ false)
  else
    (first_init, is_reset, mkStore sess (session_get sess fname ∅) true).

Section Hooks.

(** The parts of [self] that [get_value] and [set_value] read. *)
Variable fname : string.
Variable fields : list (string * FieldInst).
Variable metas : MetaHeap.

(** [set_value]: the right-hand side is evaluated first. *)
Definition set_value (name : string) (value : PyVal) (s : Store) : result unit * Store :=
  match od_get fields name with
  | None => (Raise (KeyError name), s)
  | Some f =>
      match store (kind f) value with
      | Ret raw => (Ret (), write_values fname (<[name := raw]> (values s)) s)
      | Raise e => (Raise e, s)
      end
  end.

(** [get_value]: a missing field or a missing value is a [KeyError],
    which is caught; what [unstore] raises is not. *)
Definition get_value (name : string) (dflt : PyVal) (init : bool) (s : Store)
  : result PyVal * Store :=
  let missing :=
    if init then
      match set_value name dflt s with
      | (Ret _, s') => (Ret dflt, s')
      | (Raise e, s') => (Raise e, s')
      end
    else (Ret dflt, s) in
  match od_get fields name with
  | Some f =>
      match values s !! name with
      | Some raw => (unstore (kind f) (metas (meta f)) raw, s)
      | None => missing
      end
  | None => missing
  end.

(** The loop "we list form fields" of [__init__]: every form field gets
    the current value as its [initial] and stops being required.
    [form_fields] is the dict of the form fields, by address. *)
Fixpoint materialize (todo : list (string * FieldInst))
    (form_fields : list (string * floc)) (s : Store) (hf : FormHeap)
  : result (list (string * floc)) * Store * FormHeap :=
  match todo with
  | [] => (Ret form_fields, s, hf)
  | (name, f) :: rest =>
      let l := field (metas (meta f)) in
      match get_value name (initial (hf l)) true s with
      | (Raise e, s1) => (Raise e, s1, hf)
      | (Ret v, s1) =>
          materialize rest (od_set name l form_fields) s1
            (<[l := mkFormField (creation_counter (hf l)) v false]> hf)
      end
  end.

(** [for name, value in cleaned_data.items(): self.set_value(name, value)] *)
Fixpoint set_values (items : list (string * PyVal)) (s : Store) : result unit * Store :=
  match items with
  | [] => (Ret (), s)
  | (name, value) :: rest =>
      match set_value name value s with
      | (Ret _, s1) => set_values rest s1
      | (Raise e, s1) => (Raise e, s1)
      end
  end.

(** [value or field._meta.force_empty] *)
Definition included (f : FieldInst) (value : PyVal) : bool :=
  truthy value || force_empty (metas (meta f)).

(** The loop of [render_query_kwargs]. *)
Fixpoint render_loop (todo : list (string * FieldInst)) (kwargs : Kwargs) (s : Store)
  : result Kwargs * Store :=
  match todo with
  | [] => (Ret kwargs, s)
  | (name, f) :: rest =>
      match get_value name VNone false s with
      | (Raise e, s1) => (Raise e, s1)
      | (Ret cur, s1) =>
          let value := render_value cur in
          if included f value then
            render_loop rest (<[render_operator (metas (meta f)) := value]> kwargs) s1
          else render_loop rest kwargs s1
      end
  end.

End Hooks.

(** The form of an instance: built without data, or with the submitted
    data; a bound form is valid and has [cleaned_data], or is not. *)
Inductive FormObj : Type :=
| Unbound
| Bound (submitted : list (string * string))
        (cleaned_data : option (list (string * PyVal))).

Definition is_valid (form : FormObj) : bool :=
  match form with
  | Bound _ (Some _) => true
  | _ => false
  end.

(** The attributes of a constructed instance other than [values], which
    lives in the [Store]. [fields] with [metas] and [forms] is the deep
    copy of [base_fields]: the copy keeps the sharing of the original, so
    it is the same addresses in stores of its own. *)
Record FilterInstance : Type := mkInstance {
  self_name : string;
  first_init : bool;
  is_reset : bool;
  self_fields : list (string * FieldInst);
  self_metas : MetaHeap;
  self_forms : FormHeap;
  self_form : FormObj
}.

(** "up to date session": [values] is assigned to the session entry,
    which it is from then on, and the session is marked as modified. *)
Definition write_back (fname : string) (s : Store) : Store :=
  mkStore (set_modified (session_set (session s) fname (values s))) (values s) true.

Section Construction.

(** External collaborator (Django forms): a form type built from the
    named form fields and bound to submitted data either validates, and
    then has [cleaned_data], or does not. *)
Variable clean : list (string * FormField) → list (string * string)
                 → option (list (string * PyVal)).

(** [BaseDynamicFilter.__init__]. When it raises, the store is what the
    request had changed by then. *)
Definition init (F : Filter) (hm : MetaHeap) (hf : FormHeap)
    (req : Request) (sess : Session) : result FilterInstance * Store :=
  let fname := filter_name F in
  let '(fi, ir, s0) := resolve_state fname req sess in
  let fields := base_fields F in
  match materialize fname fields hm fields [] s0 hf with
  | (Raise e, s1, _) => (Raise e, s1)
  | (Ret form_fields, s1, hf1) =>
      let finish (form : FormObj) (s : Store) :=
        (Ret (mkInstance fname fi ir fields hm hf1 form), write_back fname s) in
      if bool_decide (method req = "POST") && negb ir then
        match clean (map (fun nl => (nl.1, hf1 nl.2)) form_fields) (POST req) with
        | Some cleaned_data =>
            match set_values fname fields cleaned_data s1 with
            | (Ret _, s2) => finish (Bound (POST req) (Some cleaned_data)) s2
            | (Raise e, s2) => (Raise e, s2)
            end
        | None => finish (Bound (POST req) None) s1
        end
      else finish Unbound s1
  end.

End Construction.

(** [render_query_kwargs] *)
Definition render_query_kwargs (self : FilterInstance) (s : Store) : result Kwargs * Store :=
  render_loop (self_name self) (self_fields self) (self_metas self) (self_fields self) ∅ s.

(** [is_active] *)
Definition is_active (self : FilterInstance) (s : Store) : result bool * Store :=
  match render_query_kwargs self s with
  | (Ret kwargs, s') => (Ret (negb (bool_decide (kwargs = ∅))), s')
  | (Raise e, s') => (Raise e, s')
  end.

End Instance.
Export Instance.

(** ** The query of an instance *)

Module Query.

(** External collaborator (Django): a queryset over a model, known by the
    keyword filters that were applied to the manager's full scope, in
    order. *)
Record QuerySet : Type := mkQuerySet {
  qs_model : string;
  qs_filters : list Kwargs
}.

(** [model.objects] *)
Definition objects (model : string) : QuerySet := mkQuerySet model [].

(** [queryset.filter] called with the items of [kw] as keyword arguments: a
    call with a keyword that is not a string is a TypeError. *)
Definition qs_filter (q : QuerySet) (kw : Kwargs) : result QuerySet :=
  if decide (is_Some (kw !! None)) then
    Raise (TypeError "filter() keywords must be strings")
  else Ret (mkQuerySet (qs_model q) (qs_filters q ++ [kw])%list).

(** [render_query]; [kwargs] are the keyword arguments of the call, whose
    names are strings, and [F] is the class of [self]. *)
Definition render_query (F : Filter) (self : FilterInstance)
    (kwargs : gmap string PyVal) (s : Store) : result QuerySet * Store :=
  match render_query_kwargs self s with
  | (Raise e, s') => (Raise e, s')
  | (Ret filter_kwargs, s') =>
      let queryset := objects (filter_model F) in
      (queryset ←
         (if bool_decide (kwargs = ∅) then Ret queryset
          else qs_filter queryset (kmap Some kwargs));
       if bool_decide (filter_kwargs = ∅) then Ret queryset
       else qs_filter queryset filter_kwargs,
       s')
  end.

End Query.
Export Query.

(** ** Invariants of the store *)

Module Invariants.

(** The session entry of the filter is [values] whenever [values] is the
    dict of the session. *)
Definition coherent (fname : string) (s : Store) : Prop :=
  shared s = true → data (session s) !! fname = Some (values s).

(** What [set_value] and [get_value] keep: the coherence of [values] with
    the session, the other entries of the session, the dirty flag, and
    whether [values] is the session's. *)
Definition kept (fname : string) (s s' : Store) : Prop :=
  (coherent fname s → coherent fname s')
  ∧ (∀ k, k ≠ fname → data (session s') !! k = data (session s) !! k)
  ∧ modified (session s') = modified (session s)
  ∧ shared s' = shared s.

End Invariants.
Export Invariants.

(** ** Sample declarations

    Concrete field types, filters and requests, on which the statements
    below are instantiated. *)

Module Samples.

(** The options of a reference field "owner" over the given rows. *)
Definition owner_options (rows : list PyVal) : FieldOptions floc :=
  mkFieldOptions 0%nat None false (Some "owner") (Some rows).

(** Three field classes: a text field without a name, an integer field
    named "age" that compares with "gte", and a reference field that is
    used even when empty. Their form fields were constructed in the order
    1, 2, 0. *)
Definition sample_metas : MetaHeap := fun l =>
  match l with
  | 0%nat => mkFieldOptions 0%nat None false None None
  | 1%nat => mkFieldOptions 1%nat (Some "gte") false (Some "age") None
  | _ => mkFieldOptions 2%nat None true None (Some [VInt 1; VInt 2])
  end.

Definition sample_forms : FormHeap := fun l =>
  match l with
  | 0%nat => mkFormField 7 (VStr "") true
  | 1%nat => mkFormField 3 (VInt 18) true
  | _ => mkFormField 5 VNone true
  end.

Definition status_field : FieldInst := mkFieldInst Plain 0%nat.
Definition age_field : FieldInst := mkFieldInst Plain 1%nat.
Definition owner_field : FieldInst := mkFieldInst Reference 2%nat.

Definition sample_attrs : list (string * ClassAttr) :=
  [("status", AField status_field); ("render", AOther);
   ("min_age", AField age_field); ("owner", AField owner_field)].

(** A second filter type that declares the same text field instance under
    another attribute name. *)
Definition other_attrs : list (string * ClassAttr) :=
  [("state", AField status_field)].

(** An instance of a filter with the one text field "status", whose
    stored value is the empty string, with and without [force_empty]. *)
Definition single_instance (force : bool) : FilterInstance :=
  mkInstance "StatusFilter" false false [("status", status_field)]
    (fun _ => mkFieldOptions 0%nat None force (Some "status") None)
    sample_forms Unbound.

(** The filter that the metaclass makes of [sample_attrs], and the
    options of its field classes once their names are assigned. *)
Definition sample_filter : Filter :=
  mkFilter "UserFilter" "User"
    [("min_age", age_field); ("owner", owner_field); ("status", status_field)].

Definition sample_registered : MetaHeap :=
  (collect_fields sample_attrs sample_metas).2.

(** A form toolkit for the samples: every form field is a text field of
    at most three characters, which cleans to the submitted text, or to
    the empty string when nothing is submitted for it. *)
Definition sample_clean (form_fields : list (string * FormField))
    (submitted : list (string * string)) : option (list (string * PyVal)) :=
  if forallb (fun kv => Nat.leb (String.length kv.2) 3) submitted then
    Some (map (fun nf => (nf.1, VStr (default "" (od_get submitted nf.1)))) form_fields)
  else None.

Definition empty_session : Session := mkSession ∅ false.
Definition get_request : Request := mkRequest "GET" ∅ [].
Definition bad_post_request : Request := mkRequest "POST" ∅ [("status", "abcd")].

(** The session that a first retrieval request leaves. *)
Definition visited_session : Session :=
  session (init sample_clean sample_filter sample_registered sample_forms
             get_request empty_session).2.

Definition single_store : Store :=
  mkStore (mkSession {[ "StatusFilter" := {[ "status" := VStr "" ]} ]} true)
          {[ "status" := VStr "" ]} true.

(** A submission that validates, and a submission that also asks for a
    reset. *)
Definition good_post_request : Request := mkRequest "POST" ∅ [("status", "abc")].

Definition reset_request : Request :=
  mkRequest "POST" {[ "reset_filter" := "UserFilter" ]} [("status", "abc")].

(** Form fields as in [sample_forms], but the reference field declares the
    primary key 1 as its initial value instead of a record. *)
Definition key_initial_forms : FormHeap := fun l =>
  match l with
  | 2%nat => mkFormField 5 (VInt 1) true
  | _ => sample_forms l
  end.

(** A session that also has an entry of somebody else. *)
Definition busy_session : Session :=
  mkSession {[ "cart" := {[ "items" := VInt 3 ]} ]} false.

(** A session whose entry has a value for the field status only. *)
Definition partial_session : Session :=
  mkSession {[ "UserFilter" := {[ "status" := VStr "new" ]} ]} false.

(** Rows of a lookup collection in which the key 2 occurs twice. *)
Definition repeated_rows : list PyVal := [VInt 1; VInt 2; VInt 2].

(** A filter type whose body uses the text field class twice, under the
    attributes b and a in this order: the two instances carry the same
    options and the same form field. *)
Definition twin_attrs : list (string * ClassAttr) :=
  [("b", AField status_field); ("min_age", AField age_field);
   ("a", AField status_field)].

Definition twin_filter : Filter :=
  mkFilter "TwinFilter" "User"
    [("min_age", age_field); ("b", status_field); ("a", status_field)].

Definition twin_registered : MetaHeap :=
  (collect_fields twin_attrs sample_metas).2.

(** An instance of it, with the values x for b and y for a. *)
Definition twin_instance : FilterInstance :=
  mkInstance "TwinFilter" false false (base_fields twin_filter) twin_registered
    sample_forms Unbound.

Definition twin_store : Store :=
  mkStore
    (mkSession {[ "TwinFilter" := {[ "b" := VStr "x"; "a" := VStr "y" ]} ]} true)
    {[ "b" := VStr "x"; "a" := VStr "y" ]} true.

End Samples.
Export Samples.

(** * Properties *)

(** ** The hooks of a field *)

Section HookFacts.

Context {D : Type}.
Implicit Types (o : FieldOptions D) (v key : PyVal) (rows : list PyVal).

Lemma filter_key_absent rows key :
  key ∉ rows → filter (fun k => k = key) rows = [].
Proof.
  induction rows as [|r rows IH]; intros Hnot; [done|].
  apply not_elem_of_cons in Hnot as [Hne Hnot].
  rewrite filter_cons_False by congruence. auto.
Qed.

Lemma filter_key_present rows key :
  NoDup rows → key ∈ rows → filter (fun k => k = key) rows = [key].
Proof.
  induction 1 as [|r rows Hr Hnd IH]; intros Hin.
  - by apply elem_of_nil in Hin.
  - destruct (decide (r = key)) as [->|Hne].
    + rewrite filter_cons_True by done. by rewrite filter_key_absent.
    + rewrite filter_cons_False by done.
      apply elem_of_cons in Hin as [Heq|Hin]; [congruence|auto].
Qed.

Lemma QuerySet_get_found rows key :
  NoDup rows → key ∈ rows → QuerySet_get rows key = Ret (VModel key).
Proof. intros Hnd Hin. unfold QuerySet_get. by rewrite filter_key_present. Qed.

Lemma QuerySet_get_missing rows key :
  key ∉ rows → QuerySet_get rows key = Raise DoesNotExist.
Proof. intros Hnot. unfold QuerySet_get. by rewrite filter_key_absent. Qed.

(** A plain field stores and unstores every value as it is. *)
Lemma plain_roundtrip o v :
  (store Plain v ≫= unstore Plain o) = Ret v.
Proof. reflexivity. Qed.

(** A reference field gives back the row of a record whose primary key is
    truthy and still in the lookup collection. *)
Lemma reference_roundtrip_truthy o rows key :
  queryset o = Some rows → NoDup rows → key ∈ rows → truthy key = true →
  (store Reference (VModel key) ≫= unstore Reference o) = Ret (VModel key).
Proof.
  intros Hq Hnd Hin Ht. cbn. rewrite Ht, Hq. cbn. by apply QuerySet_get_found.
Qed.

Lemma reference_roundtrip_none o :
  (store Reference VNone ≫= unstore Reference o) = Ret VNone.
Proof. reflexivity. Qed.

(** C7, as the code has it: the null sentinel is what [unstore] returns
    for a falsy stored value, and only for it. A stored key that is truthy
    and that the lookup collection no longer has makes [unstore] raise the
    collection's DoesNotExist. *)
Theorem unstore_missing_key o key :
  key ∉ default [] (queryset o) →
  unstore Reference o key = if truthy key then Raise DoesNotExist else Ret VNone.
Proof.
  intros Hnot. unfold unstore. destruct (truthy key); [|done].
  by apply QuerySet_get_missing.
Qed.

End HookFacts.

Lemma unstore_missing_key_witness :
  (VInt 2 ∉ default [] (queryset (owner_options [VInt 1])))
  ∧ unstore Reference (owner_options [VInt 1]) (VInt 2) = Raise DoesNotExist.
Proof.
  assert (H : VInt 2 ∉ default [] (queryset (owner_options [VInt 1]))).
  { cbn. intros Hin. apply list_elem_of_singleton in Hin. discriminate Hin. }
  split; [exact H|]. exact (unstore_missing_key (owner_options [VInt 1]) (VInt 2) H).
Defined.

(** The claim C7 as it is written, that a stored key which no longer
    resolves unstores to the null sentinel, fails for the key 2 when the
    lookup collection only has the row 1. *)
Lemma unstore_deleted_record_raises :
  ¬ (∀ (o : FieldOptions floc) (key : PyVal),
       key ∉ default [] (queryset o) → unstore Reference o key = Ret VNone).
Proof.
  intros Hclaim.
  specialize (Hclaim (owner_options [VInt 1]) (VInt 2)).
  assert (H : VInt 2 ∉ default [] (queryset (owner_options [VInt 1]))).
  { cbn. intros Hin. apply list_elem_of_singleton in Hin. discriminate Hin. }
  specialize (Hclaim H). vm_compute in Hclaim. discriminate Hclaim.
Qed.

(** C6, where the code departs from it: a record with the primary key 0 is
    in the lookup collection, [store] keeps the key 0, and [unstore] of that
    key is the null sentinel instead of the record, because 0 is falsy. *)
Theorem reference_roundtrip_falsy_pk :
  let o := owner_options [VInt 0; VInt 1] in
  VInt 0 ∈ default [] (queryset o)
  ∧ store Reference (VModel (VInt 0)) = Ret (VInt 0)
  ∧ (store Reference (VModel (VInt 0)) ≫= unstore Reference o) = Ret VNone
  ∧ QuerySet_get (default [] (queryset o)) (VInt 0) = Ret (VModel (VInt 0)).
Proof.
  cbn zeta. split; [cbn; apply elem_of_cons; by left|]. by vm_compute.
Qed.

(** ** Declaring a field type *)

Lemma check_field_options_unset cls_name (opts : FieldOptions Descriptor) :
  descr_truthy (field opts) = false →
  check_field_options cls_name opts
  = Raise (ValueError (cls_name ++ ".Meta.field have to be specified.")).
Proof. intros H. unfold check_field_options. by rewrite H. Qed.

(** A descriptor that is a class, not an instance of the form field type,
    is refused with a TypeError that begins with the name of the field
    type. *)
Lemma check_field_options_class cls_name (opts : FieldOptions Descriptor) n :
  field opts = DClass n →
  check_field_options cls_name opts
  = Raise (TypeError (cls_name
             ++ ".Meta.field have to a valid Django Field, cannot be a {type}")).
Proof. intros H. unfold check_field_options. by rewrite H. Qed.

Lemma check_field_options_value cls_name (opts : FieldOptions Descriptor) v :
  field opts = DValue v → truthy v = true →
  check_field_options cls_name opts = Raise (AttributeError "__name__").
Proof. intros H Ht. unfold check_field_options. rewrite H. cbn. by rewrite Ht. Qed.

Lemma check_field_options_form_field cls_name (opts : FieldOptions Descriptor) l :
  field opts = DFormField l → check_field_options cls_name opts = Ret l.
Proof. intros H. unfold check_field_options. by rewrite H. Qed.

(** C9, where the code departs from it: the field type StatusField is
    declared with the string "text" as its Meta.field. The string is not
    null and is not a form field, and the declaration fails, but with the
    AttributeError of reading [__name__] on the string while the message is
    built: no error that names StatusField is raised. The same holds for
    ModelField types. *)
Theorem field_type_descriptor_without_name :
  let options :=
    Some (mkMeta (DValue (VStr "text")) None false None (Some [VInt 1]) false) in
  FieldMetaClass_new "StatusField" ["Field"] options = Raise (AttributeError "__name__")
  ∧ ModelFieldMetaClass_new "StatusField" ["ModelField"] options
    = Raise (AttributeError "__name__").
Proof. by vm_compute. Qed.

(** ** Declaring a filter type *)

Section RegistryFacts.

Implicit Types (hm : MetaHeap) (hf : FormHeap) (f g : FieldInst)
               (attrs : list (string * ClassAttr)) (l : mloc).

Lemma register_name_field key f hm l :
  field (register_name key f hm l) = field (hm l).
Proof.
  unfold register_name. destruct (negb _); [|done].
  destruct (decide (meta f = l)) as [<-|Hne].
  - by rewrite fn_lookup_insert.
  - by rewrite fn_lookup_insert_ne.
Qed.

Lemma register_name_kept key f hm l :
  str_set (name (hm l)) = true → register_name key f hm l = hm l.
Proof.
  intros Hset. unfold register_name.
  destruct (negb (str_set (name (hm (meta f))))) eqn:Hf; [|done].
  destruct (decide (meta f = l)) as [<-|Hne].
  - rewrite Hset in Hf. discriminate Hf.
  - by rewrite fn_lookup_insert_ne.
Qed.

Lemma register_name_other key f hm l :
  meta f ≠ l → register_name key f hm l = hm l.
Proof.
  intros Hne. unfold register_name. destruct (negb _); [|done].
  by rewrite fn_lookup_insert_ne.
Qed.

Lemma register_name_unset key f hm :
  str_set (name (hm (meta f))) = false →
  name (register_name key f hm (meta f)) = Some key.
Proof.
  intros Hunset. unfold register_name. rewrite Hunset. cbn.
  by rewrite fn_lookup_insert.
Qed.

Lemma collect_fields_cons_field key f attrs hm :
  collect_fields ((key, AField f) :: attrs) hm
  = (fs ← (collect_fields attrs (register_name key f hm)).1; Ret ((key, f) :: fs),
     (collect_fields attrs (register_name key f hm)).2).
Proof. cbn. by destruct (collect_fields attrs _). Qed.

(** The form field of a field class is never replaced by a registration,
    so the sort keys do not depend on the names that were assigned. *)
Lemma collect_fields_field attrs hm l :
  field ((collect_fields attrs hm).2 l) = field (hm l).
Proof.
  revert hm. induction attrs as [|[key [f| |]] attrs IH]; intros hm; [done| |apply IH|done].
  rewrite collect_fields_cons_field. cbn. rewrite IH. apply register_name_field.
Qed.

(** A name that is set is kept by every later registration. *)
Lemma collect_fields_kept attrs hm l :
  str_set (name (hm l)) = true → (collect_fields attrs hm).2 l = hm l.
Proof.
  revert hm. induction attrs as [|[key [f| |]] attrs IH]; intros hm Hset;
    [done| |by apply IH|done].
  rewrite collect_fields_cons_field. cbn.
  rewrite IH; rewrite register_name_kept; done.
Qed.

Lemma collect_fields_other attrs hm l :
  (∀ k g, (k, AField g) ∈ attrs → meta g ≠ l) →
  (collect_fields attrs hm).2 l = hm l.
Proof.
  revert hm. induction attrs as [|[key [f| |]] attrs IH]; intros hm Hother; [done| | |done].
  - rewrite collect_fields_cons_field. cbn. rewrite IH.
    + apply register_name_other. apply (Hother key). by left.
    + intros k g Hin. apply (Hother k). by right.
  - apply IH. intros k g Hin. apply (Hother k). by right.
Qed.

Lemma declared_only_cons key a attrs :
  declared_only ((key, a) :: attrs) → a ≠ ABareField ∧ declared_only attrs.
Proof.
  intros Hd. split.
  - intros ->. apply (Hd key). by left.
  - intros k Hin. apply (Hd k). by right.
Qed.

Lemma declared_only_app attrs1 attrs2 :
  declared_only (attrs1 ++ attrs2) ↔ declared_only attrs1 ∧ declared_only attrs2.
Proof.
  unfold declared_only. split.
  - intros Hd. split; intros k Hin; apply (Hd k), elem_of_app; eauto.
  - intros [H1 H2] k Hin. apply elem_of_app in Hin as [Hin|Hin]; [by apply (H1 k)|by apply (H2 k)].
Qed.

Lemma declared_only_perm attrs attrs' :
  attrs ≡ₚ attrs' → declared_only attrs → declared_only attrs'.
Proof. intros Hp Hd k Hin. apply (Hd k). by rewrite Hp. Qed.

Lemma collect_fields_app_heap attrs1 attrs2 hm :
  declared_only attrs1 →
  (collect_fields (attrs1 ++ attrs2) hm).2
  = (collect_fields attrs2 (collect_fields attrs1 hm).2).2.
Proof.
  revert hm. induction attrs1 as [|[key [f| |]] attrs1 IH]; intros hm Hd; [done| | |].
  - apply declared_only_cons in Hd as [_ Hd].
    rewrite <- app_comm_cons, !collect_fields_cons_field. cbn. by apply IH.
  - apply declared_only_cons in Hd as [_ Hd]. by apply IH.
  - by apply declared_only_cons in Hd as [Hd _].
Qed.

(** Without a field instance that has no [_meta], the loop returns the
    field instances of the body. *)
Lemma collect_fields_declared attrs hm :
  declared_only attrs → (collect_fields attrs hm).1 = Ret (body_fields attrs).
Proof.
  revert hm. induction attrs as [|[key [f| |]] attrs IH]; intros hm Hd; [done| | |].
  - apply declared_only_cons in Hd as [_ Hd].
    rewrite collect_fields_cons_field. cbn [fst]. by rewrite IH.
  - apply declared_only_cons in Hd as [_ Hd]. by apply IH.
  - by apply declared_only_cons in Hd as [Hd _].
Qed.

(** With one, the loop raises AttributeError. *)
Lemma collect_fields_bare attrs hm k :
  (k, ABareField) ∈ attrs → (collect_fields attrs hm).1 = Raise (AttributeError "_meta").
Proof.
  revert hm. induction attrs as [|[key [f| |]] attrs IH]; intros hm Hin.
  - by apply elem_of_nil in Hin.
  - apply elem_of_cons in Hin as [Heq|Hin]; [done|].
    rewrite collect_fields_cons_field. cbn [fst]. by rewrite IH.
  - apply elem_of_cons in Hin as [Heq|Hin]; [done|]. by apply IH.
  - done.
Qed.

(** What the loop returns, when it returns, is the field instances of the
    body, and the body has no field instance without [_meta]. *)
Lemma collect_fields_ret attrs hm found :
  (collect_fields attrs hm).1 = Ret found →
  found = body_fields attrs ∧ declared_only attrs.
Proof.
  intros Hret.
  assert (Hd : declared_only attrs).
  { intros k Hin. by rewrite (collect_fields_bare _ hm _ Hin) in Hret. }
  split; [|done]. rewrite collect_fields_declared in Hret by done. by simplify_eq.
Qed.

Lemma body_fields_elem attrs key f :
  (key, f) ∈ body_fields attrs ↔ (key, AField f) ∈ attrs.
Proof.
  unfold body_fields. rewrite list_elem_of_omap. split.
  - intros ([k [g| |]] & Hin & Heq); cbn in Heq; by simplify_eq.
  - intros Hin. by exists (key, AField f).
Qed.

Lemma body_fields_keys_sublist attrs :
  (body_fields attrs).*1 `sublist_of` attrs.*1.
Proof.
  induction attrs as [|[k [g| |]] attrs IH]; [done| | |]; cbn.
  - by apply sublist_skip.
  - by apply sublist_cons.
  - by apply sublist_cons.
Qed.

Lemma body_fields_perm attrs attrs' :
  attrs ≡ₚ attrs' → body_fields attrs ≡ₚ body_fields attrs'.
Proof. intros Hp. unfold body_fields. by rewrite Hp. Qed.

End RegistryFacts.

Local Open Scope list_scope.

Section SortFacts.

Context {A : Type} (key : A → Z).

Local Abbreviation le_key := (fun a b : A => (key a <= key b)%Z).

Lemma insert_by_perm x l : insert_by key x l ≡ₚ x :: l.
Proof.
  induction l as [|y l IH]; [done|]. cbn.
  destruct (key x <=? key y)%Z; [done|].
  rewrite IH. apply Permutation_swap.
Qed.

Lemma sort_by_perm l : sort_by key l ≡ₚ l.
Proof.
  induction l as [|x l IH]; [done|]. cbn.
  rewrite insert_by_perm. by rewrite IH.
Qed.

Lemma insert_by_sorted x l :
  StronglySorted le_key l → StronglySorted le_key (insert_by key x l).
Proof.
  induction 1 as [|y l Hs IH Hall]; cbn.
  - repeat constructor.
  - destruct (key x <=? key y)%Z eqn:Hle.
    + apply Z.leb_le in Hle. constructor; [by constructor|].
      constructor; [done|].
      eapply Forall_impl; [exact Hall|]. cbn. intros z Hz. lia.
    + apply Z.leb_gt in Hle. constructor; [done|].
      rewrite insert_by_perm. constructor; [lia|done].
Qed.

Lemma sort_by_sorted l : StronglySorted le_key (sort_by key l).
Proof.
  induction l as [|x l IH]; cbn; [constructor|]. by apply insert_by_sorted.
Qed.

Lemma NoDup_fmap_eq (l : list A) x y :
  NoDup (key <$> l) → x ∈ l → y ∈ l → key x = key y → x = y.
Proof.
  induction l as [|z l IH]; intros Hnd Hx Hy Heq.
  - by apply elem_of_nil in Hx.
  - rewrite fmap_cons in Hnd. apply NoDup_cons in Hnd as [Hz Hnd].
    apply elem_of_cons in Hx as [->|Hx]; apply elem_of_cons in Hy as [->|Hy].
    + done.
    + exfalso. apply Hz. rewrite Heq. by apply list_elem_of_fmap_2.
    + exfalso. apply Hz. rewrite <- Heq. by apply list_elem_of_fmap_2.
    + by apply IH.
Qed.

(** With keys that are pairwise distinct, the sorted list is the same for
    every order of the input. *)
Lemma sort_by_unique l l' :
  l ≡ₚ l' → NoDup (key <$> l) → sort_by key l = sort_by key l'.
Proof.
  intros Hp Hnd.
  apply (StronglySorted_unique_strong le_key); [|apply sort_by_sorted..|].
  - intros x y Hx Hy Hxy Hyx.
    rewrite sort_by_perm in Hx. rewrite sort_by_perm, <- Hp in Hy.
    apply (NoDup_fmap_eq l); [done..|lia].
  - by rewrite !sort_by_perm.
Qed.

End SortFacts.

Lemma insert_by_ext {A} (key key' : A → Z) x l :
  (∀ y, key y = key' y) → insert_by key x l = insert_by key' x l.
Proof.
  intros Hext. induction l as [|y l IH]; [done|]. cbn. by rewrite !Hext, IH.
Qed.

Lemma sort_by_ext {A} (key key' : A → Z) l :
  (∀ x, key x = key' x) → sort_by key l = sort_by key' l.
Proof.
  intros Hext. unfold sort_by. induction l as [|x l IH]; [done|].
  cbn [foldr]. rewrite IH. by apply insert_by_ext.
Qed.

Section OrderedDictFacts.

Context {V : Type}.
Implicit Types (d items : list (string * V)).

Lemma od_set_fresh k v d : k ∉ d.*1 → od_set k v d = d ++ [(k, v)].
Proof.
  induction d as [|[k' v'] d IH]; intros Hnot; [done|]. cbn in *.
  apply not_elem_of_cons in Hnot as [Hne Hnot].
  rewrite decide_False by done. by rewrite IH.
Qed.

Lemma od_set_keys k v d :
  (od_set k v d).*1 = if decide (k ∈ d.*1) then d.*1 else d.*1 ++ [k].
Proof.
  induction d as [|[k' v'] d IH]; [done|]. cbn.
  destruct (decide (k = k')) as [->|Hne].
  - cbn. rewrite decide_True; [done|by left].
  - cbn. rewrite IH. destruct (decide (k ∈ d.*1)) as [Hin|Hnot].
    + rewrite decide_True; [done|by right].
    + rewrite decide_False; [done|]. by apply not_elem_of_cons.
Qed.

Lemma od_set_NoDup k v d : NoDup d.*1 → NoDup (od_set k v d).*1.
Proof.
  intros Hnd. rewrite od_set_keys. case_decide; [done|].
  apply NoDup_app. split_and!; [done| |apply NoDup_singleton].
  intros x Hx Hx'. apply list_elem_of_singleton in Hx'. by subst.
Qed.

Lemma OrderedDict_foldl acc items :
  NoDup (acc ++ items).*1 →
  foldl (fun d kv => od_set kv.1 kv.2 d) acc items = acc ++ items.
Proof.
  revert acc. induction items as [|[k v] items IH]; intros acc Hnd.
  - by rewrite app_nil_r.
  - cbn. rewrite od_set_fresh.
    + rewrite IH; rewrite <- app_assoc; done.
    + rewrite fmap_app in Hnd. apply NoDup_app in Hnd as (_ & Hdisj & _).
      intros Hin. apply (Hdisj k Hin). cbn. by left.
Qed.

(** Built from items whose keys are distinct, the dict is the items. *)
Lemma OrderedDict_NoDup_id items : NoDup items.*1 → OrderedDict items = items.
Proof. intros Hnd. unfold OrderedDict. by rewrite OrderedDict_foldl. Qed.

(** The keys of a dict are distinct. *)
Lemma OrderedDict_keys_NoDup items : NoDup (OrderedDict items).*1.
Proof.
  unfold OrderedDict.
  assert (Hgen : ∀ acc, NoDup acc.*1 →
            NoDup (foldl (fun d (kv : string * V) => od_set kv.1 kv.2 d) acc items).*1).
  { induction items as [|[k v] items IH]; intros acc Hacc; [done|].
    cbn. apply IH. by apply od_set_NoDup. }
  apply Hgen. constructor.
Qed.

Lemma od_get_elem d k v : NoDup d.*1 → (k, v) ∈ d → od_get d k = Some v.
Proof.
  induction d as [|[k' v'] d IH]; intros Hnd Hin.
  - by apply elem_of_nil in Hin.
  - cbn in *. apply NoDup_cons in Hnd as [Hk Hnd].
    apply elem_of_cons in Hin as [Heq|Hin].
    + inversion Heq; subst. by rewrite decide_True.
    + rewrite decide_False; [by apply IH|].
      intros ->. apply Hk. by apply (list_elem_of_fmap_2 fst) in Hin.
Qed.

Lemma od_get_Some d k v : od_get d k = Some v → (k, v) ∈ d.
Proof.
  induction d as [|[k' v'] d IH]; intros Hget; [done|]. cbn in Hget.
  case_decide; [simplify_eq; by left|]. right. by apply IH.
Qed.

End OrderedDictFacts.

Section FilterTypeFacts.

Implicit Types (hm : MetaHeap) (hf : FormHeap) (f g : FieldInst)
               (attrs : list (string * ClassAttr)).

Lemma DynamicFilterMetaClass_new_heap cls_name bases attrs model hm hf :
  (DynamicFilterMetaClass_new cls_name bases attrs model hm hf).2
  = (collect_fields attrs hm).2.
Proof.
  unfold DynamicFilterMetaClass_new.
  destruct (collect_fields attrs hm) as [[found|e] hm']; [|done].
  by destruct (is_filter_marker bases).
Qed.

(** What a declaration with a valid model yields: the fields found, sorted
    by the creation counter of their form fields. *)
Lemma DynamicFilterMetaClass_new_ok cls_name bases attrs m hm hf :
  NoDup attrs.*1 → declared_only attrs → is_filter_marker bases = false →
  (DynamicFilterMetaClass_new cls_name bases attrs (ModelClass m) hm hf).1
  = Ret (mkFilterClass (remaining_attrs attrs)
           (Some (mkFilter cls_name m
                    (sort_by (counter_of hm hf) (body_fields attrs))))).
Proof.
  intros Hnd Hd Hbases. unfold DynamicFilterMetaClass_new.
  pose proof (collect_fields_declared attrs hm Hd) as Hfound.
  pose proof (fun l => collect_fields_field attrs hm l) as Hfield.
  destruct (collect_fields attrs hm) as [r hm']. cbn in Hfound, Hfield. subst r.
  rewrite Hbases. cbn.
  rewrite (sort_by_ext (counter_of hm' hf) (counter_of hm hf)).
  - rewrite OrderedDict_NoDup_id; [done|].
    rewrite (sort_by_perm (counter_of hm hf) (body_fields attrs)).
    eapply sublist_NoDup; [exact Hnd|apply body_fields_keys_sublist].
  - intros [k f]. unfold counter_of. cbn. by rewrite Hfield.
Qed.

(** What a declaration that returns a filter has found. *)
Lemma DynamicFilterMetaClass_new_inv cls_name bases attrs model hm hf c F :
  (DynamicFilterMetaClass_new cls_name bases attrs model hm hf).1 = Ret c →
  cls_filter c = Some F →
  declared_only attrs
  ∧ base_fields F
    = OrderedDict (sort_by (counter_of (collect_fields attrs hm).2 hf) (body_fields attrs)).
Proof.
  intros Hc HF. unfold DynamicFilterMetaClass_new in Hc.
  pose proof (collect_fields_ret attrs hm) as Hret.
  destruct (collect_fields attrs hm) as [[found|e] hm']; [|done].
  destruct (Hret found eq_refl) as [-> Hd].
  destruct (is_filter_marker bases); cbn in Hc;
    [|destruct (check_model cls_name model); cbn in Hc];
    simplify_eq; cbn in HF; by simplify_eq.
Qed.

(** The names of the fields of a declared filter are distinct. *)
Lemma base_fields_keys_NoDup cls_name bases attrs model hm hf c F :
  (DynamicFilterMetaClass_new cls_name bases attrs model hm hf).1 = Ret c →
  cls_filter c = Some F → NoDup (base_fields F).*1.
Proof.
  intros Hc HF.
  destruct (DynamicFilterMetaClass_new_inv _ _ _ _ _ _ _ _ Hc HF) as [_ ->].
  apply OrderedDict_keys_NoDup.
Qed.

(** C4, as the code has it: the field instances declared in the body of a
    filter type, all of declared field classes, end up in [base_fields],
    whatever the bases of the type are; [base_fields] has exactly these
    fields, in ascending order of the creation counter of the form field of
    each field's class, which is the order in which these form fields were
    constructed and not the order in which the field instances were; and
    when the counters are pairwise distinct the mapping is the same for
    every order of the declaring attributes and for every bases. *)
Theorem base_fields_in_creation_order cls_name bases attrs m hm hf :
  NoDup attrs.*1 → declared_only attrs → is_filter_marker bases = false →
  ∃ c F,
    (DynamicFilterMetaClass_new cls_name bases attrs (ModelClass m) hm hf).1 = Ret c
    ∧ cls_filter c = Some F
    ∧ filter_name F = cls_name
    ∧ (∀ key f, (key, f) ∈ base_fields F ↔ (key, AField f) ∈ attrs)
    ∧ base_fields F ≡ₚ body_fields attrs
    ∧ StronglySorted (fun x y => (counter_of hm hf x <= counter_of hm hf y)%Z)
                     (base_fields F)
    ∧ (∀ attrs' bases',
         attrs' ≡ₚ attrs → is_filter_marker bases' = false →
         NoDup (counter_of hm hf <$> body_fields attrs) →
         ∃ c' F',
           (DynamicFilterMetaClass_new cls_name bases' attrs' (ModelClass m) hm hf).1
           = Ret c'
           ∧ cls_filter c' = Some F'
           ∧ base_fields F' = base_fields F).
Proof.
  intros Hnd Hd Hbases. eexists _, _.
  split; [by apply DynamicFilterMetaClass_new_ok|].
  split; [done|]. split; [done|]. cbn. split_and!.
  - intros key f. by rewrite sort_by_perm, body_fields_elem.
  - apply sort_by_perm.
  - apply sort_by_sorted.
  - intros attrs' bases' Hp Hbases' Hdistinct. eexists _, _.
    split; [apply DynamicFilterMetaClass_new_ok;
            [by rewrite Hp|by apply (declared_only_perm attrs)|done]|].
    split; [done|]. cbn. symmetry. apply sort_by_unique; [|done].
    apply body_fields_perm. by symmetry.
Qed.

(** C10: a field instance whose name is unset is first declared as the
    attribute [k1] of one filter type, with no field instance without
    [_meta] before it in that body, and later as the attribute [k2] of
    another one. The first declaration writes [k1] into the options that
    the instance carries; the second one leaves [k1] there, lists the
    instance under [k2], and the instance still renders its operator from
    [k1]. This holds whether or not the two declarations pass their
    checks. *)
Theorem shared_field_keeps_first_name
    f k1 k2 pre post attrs2 n1 n2 bases1 bases2 model1 model2 hm hf :
  str_set (name (hm (meta f))) = false →
  k1 ≠ "" →
  declared_only pre →
  (∀ k g, (k, AField g) ∈ pre → meta g ≠ meta f) →
  (k2, AField f) ∈ attrs2 →
  let r1 := DynamicFilterMetaClass_new n1 bases1 (pre ++ (k1, AField f) :: post)
              model1 hm hf in
  let r2 := DynamicFilterMetaClass_new n2 bases2 attrs2 model2 r1.2 hf in
  name (r1.2 (meta f)) = Some k1
  ∧ r2.2 (meta f) = r1.2 (meta f)
  ∧ render_operator (r2.2 (meta f))
    = (if negb (str_set (operator (hm (meta f)))) then Some k1
       else Some (k1 ++ "__" ++ fmt (operator (hm (meta f))))%string)
  ∧ (∀ c F, r2.1 = Ret c → cls_filter c = Some F → NoDup attrs2.*1 →
       (k2, f) ∈ base_fields F).
Proof.
  intros Hunset Hk1 Hdecl Hpre Hin2 r1 r2.
  assert (Hset : ∀ s, s ≠ "" → str_set (Some s) = true).
  { intros s Hs. cbn. destruct (String.eqb_spec s ""); done. }
  assert (H1 : r1.2 (meta f) = set_name k1 (hm (meta f))).
  { unfold r1. rewrite DynamicFilterMetaClass_new_heap, collect_fields_app_heap by done.
    rewrite collect_fields_cons_field. cbn [snd].
    rewrite collect_fields_kept.
    - unfold register_name. rewrite collect_fields_other by done.
      rewrite Hunset. cbn. by rewrite fn_lookup_insert.
    - rewrite register_name_unset; [by apply Hset|].
      by rewrite collect_fields_other. }
  assert (H2 : r2.2 (meta f) = r1.2 (meta f)).
  { unfold r2. rewrite DynamicFilterMetaClass_new_heap.
    apply collect_fields_kept. rewrite H1. by apply Hset. }
  split_and!.
  - by rewrite H1.
  - done.
  - rewrite H2, H1. unfold render_operator. cbn. by destruct (negb _).
  - intros c F Hc HF Hnd.
    destruct (DynamicFilterMetaClass_new_inv _ _ _ _ _ _ _ _ Hc HF) as [_ ->].
    rewrite OrderedDict_NoDup_id.
    + rewrite sort_by_perm. by apply body_fields_elem.
    + rewrite (sort_by_perm _ (body_fields attrs2)).
      eapply sublist_NoDup; [exact Hnd|apply body_fields_keys_sublist].
Qed.

End FilterTypeFacts.

Lemma sample_attrs_declared : declared_only sample_attrs.
Proof.
  intros k Hin. unfold sample_attrs in Hin.
  repeat (apply elem_of_cons in Hin as [Heq|Hin]; [discriminate Heq|]).
  by apply elem_of_nil in Hin.
Qed.

Lemma nil_declared : declared_only [].
Proof. intros k Hin. by apply elem_of_nil in Hin. Qed.

Lemma base_fields_in_creation_order_witness :
  NoDup sample_attrs.*1
  ∧ declared_only sample_attrs
  ∧ is_filter_marker ["DynamicFilter"] = false
  ∧ ∃ c F,
      (DynamicFilterMetaClass_new "UserFilter" ["DynamicFilter"] sample_attrs
         (ModelClass "User") sample_metas sample_forms).1 = Ret c
      ∧ cls_filter c = Some F
      ∧ base_fields F
        = [("min_age", age_field); ("owner", owner_field); ("status", status_field)].
Proof.
  assert (Hnd : NoDup sample_attrs.*1) by (refine (bool_decide_unpack _ _); vm_compute; exact I).
  assert (Hb : is_filter_marker ["DynamicFilter"] = false) by reflexivity.
  split; [exact Hnd|]. split; [exact sample_attrs_declared|]. split; [exact Hb|].
  destruct (base_fields_in_creation_order "UserFilter" ["DynamicFilter"] sample_attrs
              "User" sample_metas sample_forms Hnd sample_attrs_declared Hb)
    as (c & F & Hc & HF & _).
  exists c, F. split; [exact Hc|]. split; [exact HF|].
  vm_compute in Hc. injection Hc as <-. vm_compute in HF. injection HF as <-.
  reflexivity.
Defined.

(** The claim C4 as it is written, that [base_fields] iterates in exactly
    the order in which the field instances were constructed, fails for the
    body that constructs status, min_age and owner in this order: their
    form fields were constructed in the order min_age, owner, status, and
    that is the order of [base_fields]. *)
Lemma base_fields_not_in_body_order :
  ¬ (∀ cls_name bases attrs m hm hf c F,
       NoDup attrs.*1 →
       (DynamicFilterMetaClass_new cls_name bases attrs (ModelClass m) hm hf).1 = Ret c →
       cls_filter c = Some F →
       base_fields F = body_fields attrs).
Proof.
  intros Hclaim.
  assert (Hnd : NoDup sample_attrs.*1) by (refine (bool_decide_unpack _ _); vm_compute; exact I).
  specialize (Hclaim "UserFilter" ["DynamicFilter"] sample_attrs "User" sample_metas
                sample_forms _ sample_filter Hnd eq_refl eq_refl).
  vm_compute in Hclaim. discriminate Hclaim.
Qed.

Lemma shared_field_keeps_first_name_witness :
  str_set (name (sample_metas (meta status_field))) = false
  ∧ "status" ≠ ""
  ∧ declared_only []
  ∧ (∀ (k : string) g, (k, AField g) ∈ @nil (string * ClassAttr) → meta g ≠ meta status_field)
  ∧ ("state", AField status_field) ∈ other_attrs
  ∧ let r1 := DynamicFilterMetaClass_new "UserFilter" ["DynamicFilter"] sample_attrs
                (ModelClass "User") sample_metas sample_forms in
    let r2 := DynamicFilterMetaClass_new "TicketFilter" ["DynamicFilter"] other_attrs
                (ModelClass "Ticket") r1.2 sample_forms in
    name (r1.2 (meta status_field)) = Some "status"
    ∧ name (r2.2 (meta status_field)) = Some "status".
Proof.
  assert (H1 : str_set (name (sample_metas (meta status_field))) = false) by reflexivity.
  assert (H2 : "status" ≠ "") by discriminate.
  assert (H3 : ∀ (k : string) g, (k, AField g) ∈ @nil (string * ClassAttr) → meta g ≠ meta status_field).
  { intros k g Hin. by apply elem_of_nil in Hin. }
  assert (H4 : ("state", AField status_field) ∈ other_attrs) by (by left).
  split; [exact H1|]. split; [exact H2|]. split; [exact nil_declared|].
  split; [exact H3|]. split; [exact H4|].
  destruct (shared_field_keeps_first_name status_field "status" "state" []
              (tail sample_attrs) other_attrs "UserFilter" "TicketFilter"
              ["DynamicFilter"] ["DynamicFilter"] (ModelClass "User") (ModelClass "Ticket")
              sample_metas sample_forms H1 H2 nil_declared H3 H4) as (Hn1 & Hn2 & _).
  cbn zeta. split; [exact Hn1|]. exact (eq_trans (f_equal name Hn2) Hn1).
Defined.

(** ** Resolving the session state *)

(** C1: the first step of the construction takes exactly one of three ways.
    With no session entry under the filter's name, [values] is empty and the
    session is untouched. With an entry and [reset_filter] equal to the
    filter's name, the entry is deleted and [values] is empty. Otherwise
    [values] is the entry, and the session is untouched. The three
    conditions exclude one another. *)
Theorem resolve_state_cases fname req sess :
  let r := resolve_state fname req sess in
  (data sess !! fname = None
   ∧ r.1 = (true, bool_decide (GET req !! "reset_filter" = Some fname))
   ∧ values r.2 = ∅ ∧ session r.2 = sess)
  ∨ (is_Some (data sess !! fname) ∧ GET req !! "reset_filter" = Some fname
     ∧ r.1 = (false, true)
     ∧ values r.2 = ∅
     ∧ data (session r.2) = delete fname (data sess)
     ∧ data (session r.2) !! fname = None)
  ∨ (∃ vs, data sess !! fname = Some vs ∧ GET req !! "reset_filter" ≠ Some fname
     ∧ r.1 = (false, false)
     ∧ values r.2 = vs ∧ session r.2 = sess).
Proof.
  unfold resolve_state, session_contains, session_get.
  destruct (data sess !! fname) as [vs|] eqn:Hentry.
  - rewrite bool_decide_true by eauto. cbn.
    case_bool_decide as Hreset; cbn.
    + right; left. split_and!; eauto. apply lookup_delete_eq.
    + right; right. exists vs. by split_and!.
  - rewrite bool_decide_false by (by intros [? ?]). cbn. by left.
Qed.

(** ** Reading values *)

Section ValueFacts.

Variable fname : string.
Variable fields : list (string * FieldInst).
Variable metas : MetaHeap.

(** Without [init], [get_value] writes nothing. *)
Lemma get_value_frame name dflt s :
  (get_value fname fields metas name dflt false s).2 = s.
Proof.
  unfold get_value. destruct (od_get fields name); [|done].
  by destruct (values s !! name).
Qed.

Lemma render_loop_frame todo kwargs s :
  (render_loop fname fields metas todo kwargs s).2 = s.
Proof.
  revert kwargs. induction todo as [|[name f] todo IH]; intros kwargs; [done|].
  cbn [render_loop].
  pose proof (get_value_frame name VNone s) as Hframe.
  destruct (get_value fname fields metas name VNone false s) as [[cur|e] s1];
    cbn in Hframe; subst s1; [|done].
  destruct (included metas f (render_value cur)); apply IH.
Qed.

End ValueFacts.

(** C8: [render_query_kwargs] leaves [values] as it was, whatever the state
    of the instance and whether it returns or raises; it does not touch the
    session either. The same holds for [is_active]. *)
Theorem render_query_kwargs_frame self s :
  values (render_query_kwargs self s).2 = values s
  ∧ (render_query_kwargs self s).2 = s
  ∧ (is_active self s).2 = s.
Proof.
  assert (H : (render_query_kwargs self s).2 = s) by apply render_loop_frame.
  split; [by rewrite H|]. split; [done|].
  unfold is_active. by destruct (render_query_kwargs self s) as [[kw|e] s'].
Qed.

(** ** Query kwargs *)

Section KwargsFacts.

Variable fname : string.
Variable fields : list (string * FieldInst).
Variable metas : MetaHeap.

Local Abbreviation current n s := ((get_value fname fields metas n VNone false s).1).
Local Abbreviation op f := (render_operator (metas (meta f))).
Local Abbreviation loop := (render_loop fname fields metas).

Lemma render_loop_cons name f todo kwargs s cur :
  current name s = Ret cur →
  loop ((name, f) :: todo) kwargs s
  = loop todo (if included metas f (render_value cur)
               then <[op f := render_value cur]> kwargs else kwargs) s.
Proof.
  intros Hcur. cbn [render_loop].
  pose proof (get_value_frame fname fields metas name VNone s) as Hframe.
  destruct (get_value fname fields metas name VNone false s) as [r s1].
  cbn in Hcur, Hframe. subst r s1. by destruct (included metas f (render_value cur)).
Qed.

Lemma render_loop_cons_inv name f todo kwargs s kw :
  (loop ((name, f) :: todo) kwargs s).1 = Ret kw → ∃ cur, current name s = Ret cur.
Proof.
  cbn [render_loop].
  destruct (get_value fname fields metas name VNone false s) as [[cur|e] s1]; [eauto|done].
Qed.

(** The loop returns when every current value can be read. *)
Lemma render_loop_returns todo kwargs s :
  (∀ n f, (n, f) ∈ todo → returns (current n s) = true) →
  ∃ kw, loop todo kwargs s = (Ret kw, s).
Proof.
  revert kwargs. induction todo as [|[name f] todo IH]; intros kwargs Hret; [by eexists|].
  assert (Hcur : returns (current name s) = true) by (apply (Hret name f); by left).
  destruct (current name s) as [cur|e] eqn:Hc; [|done].
  rewrite (render_loop_cons _ _ _ _ _ cur Hc). apply IH.
  intros n g Hin. apply (Hret n g). by right.
Qed.

(** A key that no remaining field renders keeps its entry. *)
Lemma render_loop_other todo kwargs s kw key :
  (loop todo kwargs s).1 = Ret kw →
  (∀ n f, (n, f) ∈ todo → op f ≠ key) →
  kw !! key = kwargs !! key.
Proof.
  revert kwargs. induction todo as [|[name f] todo IH]; intros kwargs Hloop Hother.
  - cbn in Hloop. by simplify_eq.
  - destruct (render_loop_cons_inv _ _ _ _ _ _ Hloop) as [cur Hcur].
    rewrite (render_loop_cons _ _ _ _ _ cur Hcur) in Hloop.
    rewrite (IH _ Hloop); [|intros n g Hin; apply (Hother n g); by right].
    destruct (included metas f (render_value cur)); [|done].
    apply lookup_insert_ne. apply (Hother name f). by left.
Qed.

(** With operator keys that are pairwise distinct, the entry under the key
    of a field is its own value when it is included, and is not written
    otherwise. *)
Lemma render_loop_lookup todo kwargs s kw n f cur :
  (loop todo kwargs s).1 = Ret kw →
  NoDup ((fun nf => op nf.2) <$> todo) →
  (n, f) ∈ todo → current n s = Ret cur →
  kw !! op f = if included metas f (render_value cur)
               then Some (render_value cur) else kwargs !! op f.
Proof.
  revert kwargs. induction todo as [|[name g] todo IH]; intros kwargs Hloop Hnd Hin Hcur.
  - by apply elem_of_nil in Hin.
  - rewrite fmap_cons in Hnd. apply NoDup_cons in Hnd as [Hfresh Hnd]. cbn in Hfresh.
    destruct (render_loop_cons_inv _ _ _ _ _ _ Hloop) as [cur0 Hcur0].
    rewrite (render_loop_cons _ _ _ _ _ cur0 Hcur0) in Hloop.
    apply elem_of_cons in Hin as [Heq|Hin].
    + injection Heq as -> ->. assert (cur0 = cur) as -> by congruence.
      rewrite (render_loop_other _ _ _ _ _ Hloop).
      * destruct (included metas g (render_value cur)); [|done].
        apply lookup_insert_eq.
      * intros n' f' Hin' Heq. apply Hfresh. rewrite <- Heq.
        by apply (list_elem_of_fmap_2 (fun nf => op nf.2)) in Hin'.
    + rewrite (IH _ Hloop Hnd Hin Hcur).
      destruct (included metas f (render_value cur)); [done|].
      destruct (included metas g (render_value cur0)); [|done].
      apply lookup_insert_ne. intros Heq. apply Hfresh. rewrite Heq.
      by apply (list_elem_of_fmap_2 (fun nf => op nf.2)) in Hin.
Qed.

(** In general: an entry is the rendered value of some field with that
    operator key that is included, and every such field gives its key an
    entry. *)
Lemma render_loop_entries todo kwargs s kw :
  (loop todo kwargs s).1 = Ret kw →
  (∀ key v, kw !! key = Some v →
     kwargs !! key = Some v
     ∨ ∃ n f cur, (n, f) ∈ todo ∧ current n s = Ret cur ∧ op f = key
                  ∧ v = render_value cur ∧ included metas f v = true)
  ∧ (∀ key, is_Some (kwargs !! key) → is_Some (kw !! key))
  ∧ (∀ n f cur, (n, f) ∈ todo → current n s = Ret cur →
       included metas f (render_value cur) = true → is_Some (kw !! op f)).
Proof.
  revert kwargs. induction todo as [|[name g] todo IH]; intros kwargs Hloop.
  - cbn in Hloop. simplify_eq. split_and!; [by left|done|].
    intros n f cur Hin. by apply elem_of_nil in Hin.
  - destruct (render_loop_cons_inv _ _ _ _ _ _ Hloop) as [cur0 Hcur0].
    rewrite (render_loop_cons _ _ _ _ _ cur0 Hcur0) in Hloop.
    destruct (IH _ Hloop) as (Hsound & Hmono & Hcompl). split_and!.
    + intros key v Hkw. destruct (Hsound key v Hkw) as [Hold|(n & f & cur & Hin & ?)].
      * destruct (included metas g (render_value cur0)) eqn:Hincl; [|by left].
        destruct (decide (op g = key)) as [Hk|Hk].
        -- subst key. rewrite lookup_insert_eq in Hold. simplify_eq.
           right. exists name, g, cur0. split_and!; [by left|done..].
        -- rewrite lookup_insert_ne in Hold by done. by left.
      * right. exists n, f, cur. split; [by right|done].
    + intros key Hsome. apply Hmono.
      destruct (included metas g (render_value cur0)); [|done].
      destruct (decide (op g = key)) as [<-|Hk].
      * rewrite lookup_insert_eq. eauto.
      * by rewrite lookup_insert_ne.
    + intros n f cur Hin Hcur Hincl. apply elem_of_cons in Hin as [Heq|Hin].
      * injection Heq as -> ->. assert (cur0 = cur) as -> by congruence.
        apply Hmono. rewrite Hincl, lookup_insert_eq. eauto.
      * by eapply Hcompl.
Qed.

(** Plain fields can always be read, so with them the loop returns. *)
Lemma render_loop_returns_plain todo kwargs s :
  (∀ n f, (n, f) ∈ fields → kind f = Plain) →
  ∃ kw, loop todo kwargs s = (Ret kw, s).
Proof.
  intros Hplain. apply render_loop_returns. intros n _ _.
  unfold get_value. destruct (od_get fields n) as [g|] eqn:Hg; [|done].
  destruct (values s !! n) as [raw|]; [|done].
  apply od_get_Some in Hg. by rewrite (Hplain n g Hg).
Qed.

End KwargsFacts.

(** C5, as the code has it: when [render_query_kwargs] returns, every entry of the mapping is
    the rendered value of a declared field under that field's operator key,
    and that value is truthy or the field has [force_empty]; every field
    whose value is truthy or that has [force_empty] has an entry under its
    key; with operator keys that are pairwise distinct the entry under the
    key of a field is its own value if and only if the value is truthy or
    the field has [force_empty]. [is_active] tells whether the mapping is
    non-empty. In particular, with one field whose value is the empty
    string, the mapping is empty and the filter inactive without
    [force_empty], and the mapping is that key with the empty string and the
    filter active with it. *)
Theorem render_query_kwargs_inclusion self s kw :
  (render_query_kwargs self s).1 = Ret kw →
  let current n :=
    (get_value (self_name self) (self_fields self) (self_metas self) n VNone false s).1 in
  let op f := render_operator (self_metas self (meta f)) in
  let incl f v := truthy v = true ∨ force_empty (self_metas self (meta f)) = true in
  (∀ key v, kw !! key = Some v →
     ∃ n f cur, (n, f) ∈ self_fields self ∧ current n = Ret cur ∧ op f = key
                ∧ v = render_value cur ∧ incl f v)
  ∧ (∀ n f cur, (n, f) ∈ self_fields self → current n = Ret cur →
       incl f (render_value cur) → is_Some (kw !! op f))
  ∧ (NoDup ((fun nf => op nf.2) <$> self_fields self) →
     ∀ n f cur, (n, f) ∈ self_fields self → current n = Ret cur →
       (kw !! op f = Some (render_value cur) ↔ incl f (render_value cur)))
  ∧ (is_active self s).1 = Ret (negb (bool_decide (kw = ∅)))
  ∧ (∀ n f, self_fields self = [(n, f)] → current n = Ret (VStr "") →
       (force_empty (self_metas self (meta f)) = false →
          kw = ∅ ∧ (is_active self s).1 = Ret false)
       ∧ (force_empty (self_metas self (meta f)) = true →
          kw = {[ op f := VStr "" ]} ∧ (is_active self s).1 = Ret true)).
Proof.
  intros Hloop. cbv zeta.
  assert (Hincl : ∀ f v, included (self_metas self) f v = true
                         ↔ truthy v = true ∨ force_empty (self_metas self (meta f)) = true).
  { intros f v. unfold included. apply orb_true_iff. }
  assert (Hactive : (is_active self s).1 = Ret (negb (bool_decide (kw = ∅)))).
  { unfold is_active. destruct (render_query_kwargs self s) as [[kw'|e] s'];
      cbn in Hloop; by simplify_eq. }
  unfold render_query_kwargs in Hloop.
  destruct (render_loop_entries _ _ _ _ _ _ _ Hloop) as (Hsound & _ & Hcompl).
  split_and!.
  - intros key v Hkw. destruct (Hsound key v Hkw) as [Hold|(n & f & cur & ? & ? & ? & ? & Hi)].
    + by rewrite lookup_empty in Hold.
    + exists n, f, cur. split_and!; [done..|]. by apply Hincl.
  - intros n f cur Hin Hcur Hi. eapply Hcompl; [done..|]. by apply Hincl.
  - intros Hnd n f cur Hin Hcur.
    rewrite (render_loop_lookup _ _ _ _ _ _ _ n f cur Hloop Hnd Hin Hcur).
    rewrite <- Hincl. destruct (included (self_metas self) f (render_value cur)).
    + done.
    + rewrite lookup_empty. split; intros H; discriminate H.
  - done.
  - intros n f Hfields Hcur. rewrite Hfields in Hloop, Hcur.
    rewrite (render_loop_cons _ _ _ _ _ _ _ _ (VStr "") Hcur) in Hloop.
    unfold included in Hloop. cbn in Hloop. rewrite Hactive.
    split; intros Hforce; rewrite Hforce in Hloop; cbn in Hloop; simplify_eq.
    + split; [done|]. by rewrite bool_decide_true.
    + split; [done|]. rewrite bool_decide_false; [done|].
      apply insert_non_empty.
Qed.

Lemma render_query_kwargs_inclusion_witness :
  (render_query_kwargs (single_instance false) single_store).1 = Ret ∅
  ∧ (is_active (single_instance false) single_store).1 = Ret false
  ∧ (render_query_kwargs (single_instance true) single_store).1
    = Ret {[ Some "status" := VStr "" ]}
  ∧ (is_active (single_instance true) single_store).1 = Ret true.
Proof.
  assert (H0 : (render_query_kwargs (single_instance false) single_store).1 = Ret ∅)
    by (vm_compute; reflexivity).
  assert (H1 : (render_query_kwargs (single_instance true) single_store).1
               = Ret {[ Some "status" := VStr "" ]}) by (vm_compute; reflexivity).
  split; [exact H0|].
  split.
  - destruct (render_query_kwargs_inclusion (single_instance false) single_store ∅ H0)
      as (_ & _ & _ & _ & Hsingle).
    exact (proj2 (proj1 (Hsingle "status" status_field eq_refl eq_refl) eq_refl)).
  - split; [exact H1|].
    destruct (render_query_kwargs_inclusion (single_instance true) single_store _ H1)
      as (_ & _ & _ & _ & Hsingle).
    exact (proj2 (proj2 (Hsingle "status" status_field eq_refl eq_refl) eq_refl)).
Defined.

(** The claim C5 as it is written, that the mapping has the entry of a
    field exactly when the value is truthy or the field has [force_empty],
    fails for a filter that uses one field class twice: the two fields have
    the same operator key, the second overwrites the entry of the first,
    and the first, whose value x is truthy, has no entry with its value. *)
Lemma render_query_kwargs_colliding_keys :
  ¬ (∀ self s kw n f cur,
       (render_query_kwargs self s).1 = Ret kw →
       (n, f) ∈ self_fields self →
       (get_value (self_name self) (self_fields self) (self_metas self) n VNone false s).1
       = Ret cur →
       (kw !! render_operator (self_metas self (meta f)) = Some (render_value cur)
        ↔ truthy (render_value cur) = true
          ∨ force_empty (self_metas self (meta f)) = true)).
Proof.
  intros Hclaim.
  assert (Hkw : (render_query_kwargs twin_instance twin_store).1
                = Ret {[ Some "b" := VStr "y" ]}).
  { vm_compute. reflexivity. }
  assert (Hin : ("b", status_field) ∈ self_fields twin_instance) by (right; by left).
  assert (Hcur : (get_value (self_name twin_instance) (self_fields twin_instance)
                    (self_metas twin_instance) "b" VNone false twin_store).1
                 = Ret (VStr "x")) by reflexivity.
  destruct (Hclaim _ _ _ _ _ _ Hkw Hin Hcur) as [_ Hentry].
  assert (Hx : ({[ Some "b" := VStr "y" ]} : Kwargs)
               !! render_operator (self_metas twin_instance (meta status_field))
               = Some (VStr "y")) by (vm_compute; reflexivity).
  rewrite Hx in Hentry. specialize (Hentry (or_introl eq_refl)). discriminate Hentry.
Qed.

(** ** Constructing an instance *)

Section MaterializeFacts.

Variable fname : string.
Variable fields : list (string * FieldInst).
Variable metas : MetaHeap.

Implicit Types (s : Store) (hf : FormHeap) (todo : list (string * FieldInst)).

Local Abbreviation form_of f := (field (metas (meta f))).

Lemma values_write_values vs s : values (write_values fname vs s) = vs.
Proof. done. Qed.

Lemma session_write_values_unshared vs s :
  shared s = false → session (write_values fname vs s) = session s.
Proof. intros H. unfold write_values. by rewrite H. Qed.

Lemma get_value_present name dflt init s f raw :
  od_get fields name = Some f → values s !! name = Some raw →
  get_value fname fields metas name dflt init s
  = (unstore (kind f) (metas (meta f)) raw, s).
Proof. intros Hf Hv. unfold get_value. by rewrite Hf, Hv. Qed.

Lemma get_value_absent name dflt s f raw :
  od_get fields name = Some f → values s !! name = None →
  store (kind f) dflt = Ret raw →
  get_value fname fields metas name dflt true s
  = (Ret dflt, write_values fname (<[name := raw]> (values s)) s).
Proof.
  intros Hf Hv Hstore. unfold get_value, set_value. by rewrite Hf, Hv, Hstore.
Qed.

(** [get_value] writes at most the value of a name that had none. *)
Lemma get_value_inv name dflt init s r s' :
  get_value fname fields metas name dflt init s = (r, s') →
  s' = s
  ∨ (values s !! name = None
     ∧ ∃ raw, s' = write_values fname (<[name := raw]> (values s)) s).
Proof.
  unfold get_value, set_value. intros Hget.
  destruct (od_get fields name) as [f|] eqn:Hf.
  - destruct (values s !! name) as [raw|] eqn:Hv; [left; by simplify_eq|].
    destruct init; [|left; by simplify_eq].
    destruct (store (kind f) dflt) as [raw|e]; simplify_eq; [|by left].
    right. eauto.
  - destruct init; left; by simplify_eq.
Qed.

(** The loop over the fields only adds values, and only for the names of
    the fields that had none. *)
Lemma materialize_grows todo ffs s hf r s' hf' :
  materialize fname fields metas todo ffs s hf = (r, s', hf') →
  values s ⊆ values s'
  ∧ (∀ k, k ∈ dom (values s') → k ∈ dom (values s) ∨ k ∈ todo.*1)
  ∧ shared s' = shared s.
Proof.
  revert ffs s hf. induction todo as [|[name f] todo IH]; intros ffs s hf Hmat.
  - cbn in Hmat. simplify_eq. split_and!; [done|by left|done].
  - cbn [materialize] in Hmat.
    destruct (get_value fname fields metas name (initial (hf (form_of f))) true s)
      as [[v|e] s1] eqn:Hget.
    + apply IH in Hmat as (Hsub & Hdom & Hshared).
      apply get_value_inv in Hget as [->|(Hnone & raw & ->)].
      * split_and!; [done| |done]. intros k Hk.
        destruct (Hdom k Hk); [by left|right; by right].
      * rewrite values_write_values in Hsub, Hdom. split_and!.
        -- etrans; [|exact Hsub]. by apply insert_subseteq.
        -- intros k Hk. destruct (Hdom k Hk) as [Hin|Hin]; [|right; by right].
           rewrite dom_insert_L in Hin. apply elem_of_union in Hin as [Hin|Hin].
           ++ apply elem_of_singleton in Hin as ->. right. by left.
           ++ by left.
        -- done.
    + simplify_eq. apply get_value_inv in Hget as [->|(Hnone & raw & ->)].
      * split_and!; [done|by left|done].
      * rewrite values_write_values. split_and!; [by apply insert_subseteq| |done].
        intros k Hk. rewrite dom_insert_L in Hk.
        apply elem_of_union in Hk as [Hk|Hk]; [|by left].
        apply elem_of_singleton in Hk as ->. right. by left.
Qed.

(** With a value stored for every field, and every stored value
    unstorable, the loop returns and writes nothing. *)
Lemma materialize_present todo ffs s hf :
  (∀ n f, (n, f) ∈ todo →
     od_get fields n = Some f
     ∧ ∃ raw, values s !! n = Some raw
              ∧ returns (unstore (kind f) (metas (meta f)) raw) = true) →
  ∃ ffs' hf', materialize fname fields metas todo ffs s hf = (Ret ffs', s, hf').
Proof.
  revert ffs hf. induction todo as [|[name f] todo IH]; intros ffs hf Hok.
  - by eexists _, _.
  - destruct (Hok name f) as (Hf & raw & Hv & Hret); [by left|].
    cbn [materialize]. rewrite (get_value_present _ _ _ _ _ _ Hf Hv).
    destruct (unstore (kind f) (metas (meta f)) raw) as [v|e]; [|done].
    apply IH. intros n g Hin. apply Hok. by right.
Qed.

(** With no value stored for any of the fields, and every declared
    initial value storable, the loop returns; it stores the stored form of
    the initial value of every field, leaves the other values, and does
    not change the initial value of a form field. [hf0] is the form
    fields as declared. *)
Lemma materialize_fresh (hf0 : FormHeap) todo ffs s hf :
  (∀ n f, (n, f) ∈ todo → od_get fields n = Some f) →
  NoDup todo.*1 →
  (∀ n, n ∈ todo.*1 → values s !! n = None) →
  (∀ n f, (n, f) ∈ todo → returns (store (kind f) (initial (hf0 (form_of f)))) = true) →
  (∀ l, initial (hf l) = initial (hf0 l)) →
  ∃ ffs' s' hf',
    materialize fname fields metas todo ffs s hf = (Ret ffs', s', hf')
    ∧ (∀ l, initial (hf' l) = initial (hf0 l))
    ∧ (∀ n f, (n, f) ∈ todo →
         store (kind f) (initial (hf0 (form_of f))) = Ret (default VNone (values s' !! n))
         ∧ is_Some (values s' !! n))
    ∧ (∀ k, k ∉ todo.*1 → values s' !! k = values s !! k)
    ∧ shared s' = shared s
    ∧ (shared s = false → session s' = session s).
Proof.
  revert ffs s hf.
  induction todo as [|[name f] todo IH]; intros ffs s hf Hf Hnd Hnone Hstore Hinit.
  - eexists _, _, _. split; [done|]. split_and!; [done| |done..].
    intros n f Hin. by apply elem_of_nil in Hin.
  - cbn in Hnd. apply NoDup_cons in Hnd as [Hname Hnd].
    assert (Hs : returns (store (kind f) (initial (hf0 (form_of f)))) = true)
      by (apply (Hstore name f); by left).
    destruct (store (kind f) (initial (hf0 (form_of f)))) as [raw|e] eqn:Hraw; [|done].
    cbn [materialize]. rewrite Hinit.
    rewrite (get_value_absent name _ s f raw);
      [|apply Hf; by left|apply Hnone; by left|done].
    set (s1 := write_values fname (<[name := raw]> (values s)) s).
    destruct (IH (od_set name (form_of f) ffs) s1
                (<[form_of f := mkFormField (creation_counter (hf (form_of f)))
                                  (initial (hf0 (form_of f))) false]> hf))
      as (ffs' & s' & hf' & Hmat & Hinit' & Hvals & Hrest & Hshared & Hsess).
    + intros n g Hin. apply Hf. by right.
    + done.
    + intros n Hin. unfold s1. rewrite values_write_values, lookup_insert_ne.
      * apply Hnone. by right.
      * intros ->. done.
    + intros n g Hin. apply (Hstore n g). by right.
    + intros l. destruct (decide (form_of f = l)) as [<-|Hne].
      * by rewrite fn_lookup_insert.
      * by rewrite fn_lookup_insert_ne.
    + exists ffs', s', hf'. split; [exact Hmat|]. split_and!.
      * done.
      * intros n g Hin. apply elem_of_cons in Hin as [Heq|Hin]; [|by apply Hvals].
        injection Heq as -> ->. rewrite Hrest by done.
        unfold s1. rewrite values_write_values, lookup_insert_eq. cbn.
        split; [done|eauto].
      * intros k Hk. cbn in Hk. apply not_elem_of_cons in Hk as [Hne Hk].
        rewrite Hrest by done. unfold s1.
        by rewrite values_write_values, lookup_insert_ne.
      * by rewrite Hshared.
      * intros Hunshared. rewrite Hsess by done.
        by apply session_write_values_unshared.
Qed.

(** What the loop adds when no two of the fields share a form field: for
    a field that had no value, the stored form of the initial value that
    its form field declares. [hf0] is the form fields as declared. *)
Lemma materialize_added (hf0 : FormHeap) todo ffs s hf ffs' s' hf' :
  (∀ n f, (n, f) ∈ todo → od_get fields n = Some f) →
  NoDup todo.*1 →
  NoDup ((fun nf => form_of nf.2) <$> todo) →
  (∀ n f, (n, f) ∈ todo → initial (hf (form_of f)) = initial (hf0 (form_of f))) →
  materialize fname fields metas todo ffs s hf = (Ret ffs', s', hf') →
  ∀ n f, (n, f) ∈ todo → values s !! n = None →
    ∃ raw, store (kind f) (initial (hf0 (form_of f))) = Ret raw
           ∧ values s' !! n = Some raw.
Proof.
  revert ffs s hf.
  induction todo as [|[name f] todo IH]; intros ffs s hf Hf Hnd Hforms Hinit Hmat n g Hin Hnone.
  - by apply elem_of_nil in Hin.
  - cbn in Hnd, Hforms. apply NoDup_cons in Hnd as [Hname Hnd].
    apply NoDup_cons in Hforms as [Hform Hforms].
    assert (Hfname : od_get fields name = Some f) by (apply Hf; by left).
    assert (Hf' : ∀ n f, (n, f) ∈ todo → od_get fields n = Some f).
    { intros n' g' Hin'. apply Hf. by right. }
    assert (Hinit' : ∀ v n' g', (n', g') ∈ todo →
              initial ((<[form_of f := v]> hf) (form_of g')) = initial (hf0 (form_of g'))).
    { intros v n' g' Hin'. rewrite fn_lookup_insert_ne.
      - apply (Hinit n' g'). by right.
      - intros Heq. apply Hform. rewrite Heq.
        by apply (list_elem_of_fmap_2 (fun nf : string * FieldInst => form_of nf.2)
                    todo (n', g')). }
    cbn [materialize] in Hmat. rewrite (Hinit name f) in Hmat by (by left).
    destruct (values s !! name) as [raw0|] eqn:Hv.
    + rewrite (get_value_present _ _ _ _ _ _ Hfname Hv) in Hmat.
      destruct (unstore (kind f) (metas (meta f)) raw0) as [v|e]; [|done].
      apply elem_of_cons in Hin as [Heq|Hin].
      * injection Heq as -> ->. by rewrite Hv in Hnone.
      * by apply (IH _ _ _ Hf' Hnd Hforms (Hinit' _) Hmat n g).
    + destruct (store (kind f) (initial (hf0 (form_of f)))) as [raw|e] eqn:Hraw.
      * rewrite (get_value_absent name _ s f raw Hfname Hv Hraw) in Hmat.
        apply elem_of_cons in Hin as [Heq|Hin].
        -- injection Heq as -> ->. exists raw. split; [done|].
           destruct (materialize_grows _ _ _ _ _ _ _ Hmat) as (Hsub & _).
           eapply lookup_weaken; [|exact Hsub].
           rewrite values_write_values. apply lookup_insert_eq.
        -- apply (IH _ _ _ Hf' Hnd Hforms (Hinit' _) Hmat n g Hin).
           rewrite values_write_values, lookup_insert_ne; [done|].
           intros <-. apply Hname.
           by apply (list_elem_of_fmap_2 fst todo (name, g)).
      * unfold get_value, set_value in Hmat. rewrite Hfname, Hv, Hraw in Hmat.
        done.
Qed.

End MaterializeFacts.

Lemma resolve_state_flags fname req sess :
  (resolve_state fname req sess).1
  = (negb (session_contains sess fname),
     bool_decide (GET req !! "reset_filter" = Some fname)).
Proof.
  unfold resolve_state.
  by destruct (negb (session_contains sess fname)
               || bool_decide (GET req !! "reset_filter" = Some fname)).
Qed.

(** Unless the request is a reset, [values] starts as what the session
    holds under the filter's name: the entry, or nothing. *)
Lemma resolve_state_no_reset fname req sess :
  (resolve_state fname req sess).1.2 = false →
  values (resolve_state fname req sess).2 = session_get sess fname ∅.
Proof.
  rewrite resolve_state_flags. cbn. intros Hreset.
  unfold resolve_state, session_contains, session_get. rewrite Hreset.
  destruct (data sess !! fname) as [vs|] eqn:Hentry.
  - by rewrite bool_decide_true by eauto.
  - by rewrite bool_decide_false by (by intros [? ?]).
Qed.

(** On a session without an entry, [values] starts empty, is not the
    session's, and the session is untouched. *)
Lemma resolve_state_fresh fname req sess :
  data sess !! fname = None →
  (resolve_state fname req sess).2 = mkStore sess ∅ false.
Proof.
  intros Hentry. unfold resolve_state, session_contains. rewrite Hentry.
  by rewrite bool_decide_false by (by intros [? ?]).
Qed.

Section InitFacts.

Variable clean : list (string * FormField) → list (string * string)
                 → option (list (string * PyVal)).

Implicit Types (F : Filter) (hm : MetaHeap) (hf : FormHeap)
               (req : Request) (sess : Session).

(** A request that submits nothing, or a reset: when the loop over the
    fields returns, so does the construction, with an unbound form. *)
Lemma init_no_submission F hm hf req sess ffs s1 hf1 :
  let r := resolve_state (filter_name F) req sess in
  materialize (filter_name F) (base_fields F) hm (base_fields F) [] r.2 hf
  = (Ret ffs, s1, hf1) →
  bool_decide (method req = "POST") && negb r.1.2 = false →
  init clean F hm hf req sess
  = (Ret (mkInstance (filter_name F) r.1.1 r.1.2 (base_fields F) hm hf1 Unbound),
     write_back (filter_name F) s1).
Proof.
  cbn zeta. unfold init.
  destruct (resolve_state (filter_name F) req sess) as [[fi ir] s0]. cbn.
  intros -> ->. done.
Qed.

(** What a construction that returns has done. *)
Lemma init_inv F hm hf req sess inst st :
  init clean F hm hf req sess = (Ret inst, st) →
  let r := resolve_state (filter_name F) req sess in
  ∃ ffs s1 hf1 s2,
    materialize (filter_name F) (base_fields F) hm (base_fields F) [] r.2 hf
    = (Ret ffs, s1, hf1)
    ∧ first_init inst = r.1.1 ∧ is_reset inst = r.1.2
    ∧ st = write_back (filter_name F) s2
    ∧ ((bool_decide (method req = "POST") && negb r.1.2 = false
        ∧ self_form inst = Unbound ∧ s2 = s1)
       ∨ (bool_decide (method req = "POST") && negb r.1.2 = true
          ∧ ((self_form inst = Bound (POST req) None ∧ s2 = s1)
             ∨ ∃ cd, self_form inst = Bound (POST req) (Some cd)
                     ∧ set_values (filter_name F) (base_fields F) cd s1
                       = (Ret (), s2)))).
Proof.
  cbn zeta. unfold init.
  destruct (resolve_state (filter_name F) req sess) as [[fi ir] s0]. cbn.
  destruct (materialize (filter_name F) (base_fields F) hm (base_fields F) [] s0 hf)
    as [[[ffs|e] s1] hf1]; [|done].
  destruct (bool_decide (method req = "POST") && negb ir) eqn:Hsub.
  - destruct (clean _ (POST req)) as [cd|].
    + destruct (set_values (filter_name F) (base_fields F) cd s1) as [[[]|e] s2] eqn:Hset;
        [|done].
      intros Hinit. simplify_eq. exists ffs, s1, hf1, s2. cbn.
      split_and!; [done..|]. right. split; [done|]. right. by exists cd.
    + intros Hinit. simplify_eq. exists ffs, s1, hf1, s1. cbn.
      split_and!; [done..|]. right. split; [done|]. by left.
  - intros Hinit. simplify_eq. exists ffs, s1, hf1, s1. cbn.
    split_and!; [done..|]. by left.
Qed.

(** C3, as the code has it: after a submission (POST, not a reset) that
    fails validation, the values written back to the session have every
    value that the session held before the request, unchanged; what they
    have more are values of declared fields that had none; so they are the
    values of before the request when these had a value for every declared
    field. Nothing of the submission is kept: the store is left as a
    retrieval request with the same query parameters leaves it. When the
    names of the fields are distinct and no two fields share a form field,
    the value of a field that had none is the stored form of the initial
    value that its form field declares. *)
Theorem invalid_submission_keeps_values F hm hf req sess inst st :
  init clean F hm hf req sess = (Ret inst, st) →
  method req = "POST" → is_reset inst = false → is_valid (self_form inst) = false →
  let before := session_get sess (filter_name F) ∅ in
  data (session st) !! filter_name F = Some (values st)
  ∧ before ⊆ values st
  ∧ (∀ k, k ∈ dom (values st) → k ∈ dom before ∨ k ∈ (base_fields F).*1)
  ∧ ((∀ k, k ∈ (base_fields F).*1 → k ∈ dom before) → values st = before)
  ∧ st = (init clean F hm hf (mkRequest "GET" (GET req) (POST req)) sess).2
  ∧ (NoDup (base_fields F).*1 →
     NoDup ((fun nf => field (hm (meta nf.2))) <$> base_fields F) →
     ∀ n f, (n, f) ∈ base_fields F → before !! n = None →
       ∃ raw, store (kind f) (initial (hf (field (hm (meta f))))) = Ret raw
              ∧ values st !! n = Some raw).
Proof.
  intros Hinit Hpost Hreset Hvalid before.
  destruct (init_inv _ _ _ _ _ _ _ Hinit)
    as (ffs & s1 & hf1 & s2 & Hmat & _ & Hir & -> & Hform).
  rewrite Hreset in Hir. symmetry in Hir.
  assert (Hs2 : s2 = s1).
  { destruct Hform as [(_ & _ & ->)|(_ & [[_ ->]|(cd & Hf & _)])]; [done..|].
    rewrite Hf in Hvalid. discriminate Hvalid. }
  subst s2.
  destruct (materialize_grows _ _ _ _ _ _ _ _ _ _ Hmat) as (Hsub & Hdom & _).
  rewrite (resolve_state_no_reset _ _ _ Hir) in Hsub, Hdom.
  fold before in Hsub, Hdom. cbn [write_back values session].
  assert (Hsame : (∀ k, k ∈ (base_fields F).*1 → k ∈ dom before) → values s1 = before).
  { intros Hall. symmetry. apply subseteq_dom_eq; [done|].
    intros k Hk. destruct (Hdom k Hk); [done|by apply Hall]. }
  split_and!; [|done..| |].
  - cbn. apply lookup_insert_eq.
  - rewrite (init_no_submission F hm hf (mkRequest "GET" (GET req) (POST req)) sess
               ffs s1 hf1); [done|exact Hmat|done].
  - intros Hnd Hforms n f Hin Hnone.
    apply (materialize_added _ _ _ hf _ _ _ _ _ _ _
             (fun n f Hin => od_get_elem _ _ _ Hnd Hin) Hnd Hforms
             (fun _ _ _ => eq_refl) Hmat n f Hin).
    by rewrite (resolve_state_no_reset _ _ _ Hir).
Qed.

End InitFacts.

Lemma resolve_state_reset fname req sess :
  is_Some (data sess !! fname) → GET req !! "reset_filter" = Some fname →
  (resolve_state fname req sess).2 = mkStore (session_del sess fname) ∅ false.
Proof.
  intros Hentry Hreset. unfold resolve_state, session_contains.
  rewrite (bool_decide_true _ Hentry), (bool_decide_true _ Hreset). done.
Qed.

Lemma resolve_state_continue fname req sess vs :
  data sess !! fname = Some vs → GET req !! "reset_filter" ≠ Some fname →
  (resolve_state fname req sess).2 = mkStore sess vs true.
Proof.
  intros Hentry Hreset. unfold resolve_state, session_contains, session_get.
  rewrite bool_decide_true by (rewrite Hentry; eauto).
  rewrite (bool_decide_false _ Hreset). cbn. by rewrite Hentry.
Qed.

Section FirstInitFacts.

Variable clean : list (string * FormField) → list (string * string)
                 → option (list (string * PyVal)).

(** C2: on a session with no entry under the filter's name, a
    construction without submitted data returns when the initial value of
    every field can be stored; it reports a first init and leaves a
    session entry that has, for every declared field, the stored form of
    the initial value that its form field declares, and nothing else.
    Every construction on that session that returns reports
    [first_init = false]; and a further construction without submitted
    data does return when these stored values can be unstored. *)
Theorem first_init_persists_defaults F hm hf req sess :
  let fname := filter_name F in
  let stored f := store (kind f) (initial (hf (field (hm (meta f))))) in
  NoDup (base_fields F).*1 →
  data sess !! fname = None →
  method req ≠ "POST" →
  (∀ n f, (n, f) ∈ base_fields F → returns (stored f) = true) →
  ∃ inst st entry,
    init clean F hm hf req sess = (Ret inst, st)
    ∧ first_init inst = true
    ∧ data (session st) !! fname = Some entry
    ∧ (∀ n f, (n, f) ∈ base_fields F →
         ∃ raw, stored f = Ret raw ∧ entry !! n = Some raw)
    ∧ (∀ k, k ∈ dom entry ↔ k ∈ (base_fields F).*1)
    ∧ (∀ req2 inst2 st2,
         init clean F hm hf req2 (session st) = (Ret inst2, st2) →
         first_init inst2 = false)
    ∧ (∀ req2,
         method req2 ≠ "POST" →
         (∀ n f raw, (n, f) ∈ base_fields F → stored f = Ret raw →
            returns (unstore (kind f) (hm (meta f)) raw) = true) →
         ∃ inst2 st2,
           init clean F hm hf req2 (session st) = (Ret inst2, st2)
           ∧ first_init inst2 = false).
Proof.
  intros fname stored Hnd Hfresh Hget Hstore.
  assert (Hfields : ∀ n f, (n, f) ∈ base_fields F → od_get (base_fields F) n = Some f).
  { intros n f Hin. by apply od_get_elem. }
  assert (Hunbound : ∀ (rq : Request) ir, method rq ≠ "POST" →
            bool_decide (method rq = "POST") && negb ir = false).
  { intros rq ir Hm. by rewrite (bool_decide_false _ Hm). }
  (* the first construction *)
  destruct (materialize_fresh fname (base_fields F) hm hf (base_fields F) []
              (mkStore sess ∅ false) hf)
    as (ffs & s1 & hf1 & Hmat & _ & Hvals & Hrest & Hshared & Hsess);
    [done|done|intros; apply lookup_empty|exact Hstore|done|].
  cbn in Hshared. specialize (Hsess eq_refl). cbn in Hsess.
  pose proof (init_no_submission clean F hm hf req sess ffs s1 hf1) as Hinit.
  cbn zeta in Hinit. fold fname in Hinit.
  rewrite (resolve_state_fresh fname req sess Hfresh) in Hinit.
  rewrite resolve_state_flags in Hinit. cbn [fst snd] in Hinit.
  specialize (Hinit Hmat (Hunbound req _ Hget)).
  assert (Hflag : negb (session_contains sess fname) = true).
  { unfold session_contains. rewrite Hfresh.
    by rewrite bool_decide_false by (by intros [? ?]). }
  rewrite Hflag in Hinit.
  assert (Hentry : data (session (write_back fname s1)) !! fname = Some (values s1)).
  { cbn. apply lookup_insert_eq. }
  assert (Hstored : ∀ n f, (n, f) ∈ base_fields F →
            ∃ raw, stored f = Ret raw ∧ values s1 !! n = Some raw).
  { intros n f Hin. destruct (Hvals n f Hin) as [Hraw [raw Hsome]].
    exists raw. rewrite Hsome in Hraw. by split. }
  assert (Hflag2 : negb (session_contains (session (write_back fname s1)) fname)
                   = false).
  { unfold session_contains. rewrite Hentry. by rewrite bool_decide_true by eauto. }
  eexists _, (write_back fname s1), (values s1).
  split; [exact Hinit|]. split; [done|]. split; [exact Hentry|].
  split; [exact Hstored|]. split_and!.
  - intros k. rewrite elem_of_dom. split.
    + intros Hsome. destruct (decide (k ∈ (base_fields F).*1)) as [|Hnot]; [done|].
      rewrite (Hrest k Hnot) in Hsome. cbn in Hsome. rewrite lookup_empty in Hsome.
      by destruct Hsome.
    + intros Hk. apply list_elem_of_fmap in Hk as ([n f] & -> & Hin).
      destruct (Hstored n f Hin) as (raw & _ & Hraw). cbn. eauto.
  - intros req2 inst2 st2 Hinit2.
    destruct (init_inv _ _ _ _ _ _ _ _ Hinit2) as (_ & _ & _ & _ & _ & Hfi & _).
    rewrite Hfi, resolve_state_flags. exact Hflag2.
  - intros req2 Hget2 Hunstore.
    pose proof (init_no_submission clean F hm hf req2 (session (write_back fname s1)))
      as Hinit2.
    cbn zeta in Hinit2. fold fname in Hinit2.
    destruct (decide (GET req2 !! "reset_filter" = Some fname)) as [Hreset|Hreset].
    + rewrite (resolve_state_reset fname req2 _ (mk_is_Some _ _ Hentry) Hreset) in Hinit2.
      destruct (materialize_fresh fname (base_fields F) hm hf (base_fields F) []
                  (mkStore (session_del (session (write_back fname s1)) fname) ∅ false)
                  hf)
        as (ffs2 & s2 & hf2 & Hmat2 & _);
        [done|done|intros; apply lookup_empty|exact Hstore|done|].
      specialize (Hinit2 ffs2 s2 hf2 Hmat2 (Hunbound req2 _ Hget2)).
      eexists _, _. split; [exact Hinit2|].
      cbn [first_init]. rewrite resolve_state_flags. exact Hflag2.
    + rewrite (resolve_state_continue fname req2 _ _ Hentry Hreset) in Hinit2.
      destruct (materialize_present fname (base_fields F) hm (base_fields F) []
                  (mkStore (session (write_back fname s1)) (values s1) true) hf)
        as (ffs2 & hf2 & Hmat2).
      { intros n f Hin. split; [by apply Hfields|].
        destruct (Hstored n f Hin) as (raw & Hraw & Hv).
        exists raw. split; [exact Hv|]. by eapply Hunstore. }
      specialize (Hinit2 ffs2 _ hf2 Hmat2 (Hunbound req2 _ Hget2)).
      eexists _, _. split; [exact Hinit2|].
      cbn [first_init]. rewrite resolve_state_flags. exact Hflag2.
Qed.

End FirstInitFacts.

Lemma sample_fields_cases (P : string → FieldInst → Prop) :
  P "min_age" age_field → P "owner" owner_field → P "status" status_field →
  ∀ n f, (n, f) ∈ base_fields sample_filter → P n f.
Proof.
  intros H1 H2 H3 n f Hin. cbn in Hin.
  repeat (apply elem_of_cons in Hin as [Heq|Hin]; [by injection Heq as -> ->|]).
  by apply elem_of_nil in Hin.
Qed.

Lemma first_init_persists_defaults_witness :
  NoDup (base_fields sample_filter).*1
  ∧ data empty_session !! filter_name sample_filter = None
  ∧ method get_request ≠ "POST"
  ∧ ∃ inst st entry,
      init sample_clean sample_filter sample_registered sample_forms
        get_request empty_session = (Ret inst, st)
      ∧ first_init inst = true
      ∧ data (session st) !! "UserFilter" = Some entry
      ∧ entry !! "min_age" = Some (VInt 18)
      ∧ entry !! "owner" = Some VNone
      ∧ entry !! "status" = Some (VStr "")
      ∧ ∃ inst2 st2,
          init sample_clean sample_filter sample_registered sample_forms
            get_request (session st) = (Ret inst2, st2)
          ∧ first_init inst2 = false.
Proof.
  assert (H1 : NoDup (base_fields sample_filter).*1)
    by (refine (bool_decide_unpack _ _); vm_compute; exact I).
  assert (H2 : data empty_session !! filter_name sample_filter = None) by reflexivity.
  assert (H3 : method get_request ≠ "POST") by discriminate.
  assert (H4 : ∀ n f, (n, f) ∈ base_fields sample_filter →
            returns (store (kind f)
                       (initial (sample_forms (field (sample_registered (meta f))))))
            = true)
    by (apply sample_fields_cases; reflexivity).
  split; [exact H1|]. split; [exact H2|]. split; [exact H3|].
  destruct (first_init_persists_defaults sample_clean sample_filter sample_registered
              sample_forms get_request empty_session H1 H2 H3 H4)
    as (inst & st & entry & Hinit & Hfi & Hentry & Hstored & _ & _ & Hagain).
  exists inst, st, entry. split; [exact Hinit|]. split; [exact Hfi|].
  split; [exact Hentry|].
  assert (Hin1 : ("min_age", age_field) ∈ base_fields sample_filter) by (by left).
  assert (Hin2 : ("owner", owner_field) ∈ base_fields sample_filter)
    by (right; by left).
  assert (Hin3 : ("status", status_field) ∈ base_fields sample_filter)
    by (right; right; by left).
  destruct (Hstored _ _ Hin1) as (raw1 & Hr1 & He1).
  destruct (Hstored _ _ Hin2) as (raw2 & Hr2 & He2).
  destruct (Hstored _ _ Hin3) as (raw3 & Hr3 & He3).
  vm_compute in Hr1, Hr2, Hr3.
  injection Hr1 as <-. injection Hr2 as <-. injection Hr3 as <-.
  split; [exact He1|]. split; [exact He2|]. split; [exact He3|].
  apply (Hagain get_request H3).
  intros n f raw Hin. revert n f Hin raw.
  apply (sample_fields_cases (fun _ f => ∀ raw,
           store (kind f) (initial (sample_forms (field (sample_registered (meta f)))))
           = Ret raw →
           returns (unstore (kind f) (sample_registered (meta f)) raw) = true));
    intros raw Hraw; vm_compute in Hraw; injection Hraw as <-; reflexivity.
Defined.

Lemma invalid_submission_keeps_values_witness :
  ∃ inst st,
    init sample_clean sample_filter sample_registered sample_forms
      bad_post_request partial_session = (Ret inst, st)
    ∧ method bad_post_request = "POST"
    ∧ is_reset inst = false
    ∧ is_valid (self_form inst) = false
    ∧ data (session st) !! "UserFilter" = Some (values st)
    ∧ session_get partial_session "UserFilter" ∅ ⊆ values st
    ∧ values st !! "min_age" = Some (VInt 18).
Proof.
  assert (Hres : match (init sample_clean sample_filter sample_registered sample_forms
                          bad_post_request partial_session).1 with
                 | Ret i => is_reset i = false ∧ is_valid (self_form i) = false
                 | Raise _ => False
                 end) by (vm_compute; split; reflexivity).
  destruct (init sample_clean sample_filter sample_registered sample_forms
              bad_post_request partial_session) as [[inst|e] st] eqn:Hinit;
    cbn in Hres; [|destruct Hres].
  destruct Hres as [Hreset Hvalid].
  exists inst, st. split; [reflexivity|]. split; [reflexivity|].
  split; [exact Hreset|]. split; [exact Hvalid|].
  destruct (invalid_submission_keeps_values sample_clean sample_filter sample_registered
              sample_forms bad_post_request partial_session inst st Hinit eq_refl
              Hreset Hvalid) as (Hwritten & Hsub & _ & _ & _ & Hadded).
  split; [exact Hwritten|]. split; [exact Hsub|].
  assert (Hnd : NoDup (base_fields sample_filter).*1)
    by (refine (bool_decide_unpack _ _); vm_compute; exact I).
  assert (Hforms : NoDup ((fun nf : string * FieldInst =>
                             field (sample_registered (meta nf.2)))
                          <$> base_fields sample_filter))
    by (refine (bool_decide_unpack _ _); vm_compute; exact I).
  assert (Hin : ("min_age", age_field) ∈ base_fields sample_filter) by (by left).
  assert (Hnone : session_get partial_session (filter_name sample_filter) ∅
                  !! "min_age" = None) by reflexivity.
  destruct (Hadded Hnd Hforms "min_age" age_field Hin Hnone) as (raw & Hraw & Hval).
  vm_compute in Hraw. injection Hraw as <-. exact Hval.
Defined.

(** The claim C3 as it is written, that the values written back after an
    invalid submission are the values that the session held before the
    request, fails on a session that has no entry yet: the session held no
    values, and the entry written back has the stored default of every
    field. *)
Lemma invalid_submission_on_fresh_session :
  ¬ (∀ clean F hm hf req sess inst st,
       init clean F hm hf req sess = (Ret inst, st) →
       method req = "POST" → is_reset inst = false →
       is_valid (self_form inst) = false →
       data (session st) !! filter_name F = Some (session_get sess (filter_name F) ∅)).
Proof.
  intros Hclaim.
  assert (Hres : match (init sample_clean sample_filter sample_registered sample_forms
                          bad_post_request empty_session).1 with
                 | Ret i => is_reset i = false ∧ is_valid (self_form i) = false
                 | Raise _ => False
                 end) by (vm_compute; split; reflexivity).
  assert (Hafter : data (session (init sample_clean sample_filter sample_registered
                                    sample_forms bad_post_request empty_session).2)
                     !! "UserFilter" ≠ Some ∅).
  { vm_compute. discriminate. }
  destruct (init sample_clean sample_filter sample_registered sample_forms
              bad_post_request empty_session) as [[inst|e] st] eqn:Hinit;
    cbn in Hres; [|destruct Hres].
  destruct Hres as [Hreset Hvalid].
  apply Hafter. exact (Hclaim _ _ _ _ _ _ _ _ Hinit eq_refl Hreset Hvalid).
Qed.

(** * Further properties *)

(** ** Field types *)

(** A record with a truthy primary key that goes through [store] and then
    [unstore] of a ModelField comes back as the row with that key when the
    queryset yields exactly one row with that key; with no such row the
    round trip raises DoesNotExist, and with several of them
    MultipleObjectsReturned. *)
Theorem reference_roundtrip {D} (o : FieldOptions D) rows key :
  queryset o = Some rows → truthy key = true →
  (store Reference (VModel key) ≫= unstore Reference o)
  = match length (filter (fun k => k = key) rows) with
    | 0%nat => Raise DoesNotExist
    | 1%nat => Ret (VModel key)
    | _ => Raise MultipleObjectsReturned
    end.
Proof.
  intros Hq Ht. cbn. rewrite Ht, Hq. cbn. unfold QuerySet_get.
  destruct (filter (fun k => k = key) rows) as [|k [|k' l]] eqn:Hf; [done| |done].
  assert (Hk : k ∈ filter (fun k => k = key) rows) by (rewrite Hf; by left).
  apply list_elem_of_filter in Hk as [-> _]. done.
Qed.

Lemma reference_roundtrip_witness :
  queryset (owner_options repeated_rows) = Some repeated_rows
  ∧ truthy (VInt 1) = true
  ∧ (store Reference (VModel (VInt 1)) ≫= unstore Reference (owner_options repeated_rows))
    = Ret (VModel (VInt 1)).
Proof.
  assert (H1 : queryset (owner_options repeated_rows) = Some repeated_rows)
    by reflexivity.
  assert (H2 : truthy (VInt 1) = true) by reflexivity.
  split; [exact H1|]. split; [exact H2|].
  exact (reference_roundtrip (owner_options repeated_rows) repeated_rows (VInt 1) H1 H2).
Defined.

(** A field type is made without options exactly when it is the marker
    type, and with options exactly when its Meta.field is a form field; the
    options are then those of Meta, without a queryset. *)
Theorem FieldMetaClass_new_accepts cls_name bases options o :
  (FieldMetaClass_new cls_name bases options = Ret None ↔ is_marker bases = true)
  ∧ (FieldMetaClass_new cls_name bases options = Ret (Some o)
     ↔ is_marker bases = false
       ∧ ∃ m l, options = Some m ∧ Meta_field m = DFormField l
                ∧ o = mkFieldOptions l (Meta_operator m) (Meta_force_empty m)
                        (Meta_name m) None).
Proof.
  unfold FieldMetaClass_new. destruct (is_marker bases).
  { split; [done|]. split; [done|]. by intros [? _]. }
  assert (Hcheck : ∀ opts : FieldOptions Descriptor,
            (∀ l, check_field_options cls_name opts = Ret l → field opts = DFormField l)
            ∧ (∀ l, field opts = DFormField l → check_field_options cls_name opts = Ret l)).
  { intros opts. unfold check_field_options. split.
    - intros l. destruct (field opts) as [l'|n|v]; cbn; [by intros [= ->]|done|].
      by destruct (truthy v).
    - by intros l ->. }
  split.
  - split; [|done]. destruct (check_field_options cls_name _); done.
  - split.
    + intros Hnew. split; [done|].
      destruct (check_field_options cls_name (FieldOptions_init options)) as [l|e] eqn:Hc;
        [|done].
      apply (proj1 (Hcheck _)) in Hc. cbn in Hnew. simplify_eq.
      destruct options as [m|]; [|done]. cbn in Hc. by exists m, l.
    + intros (_ & m & l & -> & Hf & ->).
      rewrite (proj2 (Hcheck _) l) by done. done.
Qed.

(** A ModelField type is made with options exactly when its Meta.field is a
    form field and its Meta.queryset is set and truthy: a manager, or a
    queryset that yields a row at the time of the declaration. With a form
    field but no queryset, or a queryset without rows, the declaration is a
    ValueError. *)
Theorem ModelFieldMetaClass_new_accepts cls_name bases options o :
  (ModelFieldMetaClass_new cls_name bases options = Ret None ↔ is_marker bases = true)
  ∧ (ModelFieldMetaClass_new cls_name bases options = Ret (Some o)
     ↔ is_marker bases = false
       ∧ ∃ m l rows, options = Some m ∧ Meta_field m = DFormField l
                ∧ Meta_queryset m = Some rows
                ∧ (Meta_queryset_is_manager m = true ∨ rows ≠ [])
                ∧ o = mkFieldOptions l (Meta_operator m) (Meta_force_empty m)
                        (Meta_name m) (Some rows))
  ∧ (is_marker bases = false →
     ∀ m l, options = Some m → Meta_field m = DFormField l →
            queryset_truthy (Meta_queryset_is_manager m) (Meta_queryset m) = false →
            ModelFieldMetaClass_new cls_name bases options
            = Raise (ValueError "Queryset has to be specified.")).
Proof.
  unfold ModelFieldMetaClass_new, FieldMetaClass_new. destruct (is_marker bases).
  { split; [done|]. split; [|done]. split; [done|]. by intros [? _]. }
  assert (Hno : ∀ (r : result (option (FieldOptions floc))) (P Q : Prop),
            (∀ x, r ≠ Ret x) → ¬ P → Q →
            (r = Ret None ↔ false = true)
            ∧ (r = Ret (Some o) ↔ false = false ∧ P) ∧ Q).
  { intros r P Q Hr HP HQ. split_and!; [| |done]; (split; [by intros ?%Hr|]); [done|].
    by intros [_ ?%HP]. }
  destruct options as [m|]; cbn; unfold check_field_options; cbn.
  - destruct (Meta_field m) as [l|n|v] eqn:Hf; cbn.
    + destruct (Meta_queryset m) as [rows|] eqn:Hq; cbn.
      * destruct (Meta_queryset_is_manager m || match rows with [] => false | _ => true end)
          eqn:Ht; cbn.
        -- split_and!; [done| |intros _ ? ? [= <-] _ Hqt; rewrite Hq in Hqt; cbn in Hqt; congruence].
           split.
           ++ intros [= <-]. split; [done|]. exists m, l, rows.
              split_and!; [done..| |].
              ** apply orb_true_iff in Ht as [Ht|Ht]; [by left|right].
                 by destruct rows.
              ** unfold validated. cbn. by rewrite Hq.
           ++ intros (_ & m0 & l0 & rows0 & Hm & Hf' & Hq' & _ & Ho).
              injection Hm as <-. rewrite Hf in Hf'. rewrite Hq in Hq'.
              injection Hf' as <-. injection Hq' as <-. rewrite Ho.
              unfold validated. cbn. by rewrite Hq.
        -- apply Hno; [done| |done].
           intros (m0 & l0 & rows0 & Hm & _ & Hq' & Hor & _).
           injection Hm as <-. rewrite Hq in Hq'. injection Hq' as <-.
           apply orb_false_iff in Ht as [Ht1 Ht2].
           destruct Hor as [Hor|Hor]; [congruence|]. by destruct rows.
      * apply Hno; [done| |done].
        intros (m0 & ? & ? & Hm & _ & Hq' & _). injection Hm as <-. congruence.
    + apply Hno; [done| |intros _ ? ? [= <-]; congruence].
      intros (? & ? & ? & [= <-] & ? & _). congruence.
    + destruct (truthy v); cbn;
        (apply Hno; [done| |intros _ ? ? [= <-]; congruence];
         intros (? & ? & ? & [= <-] & ? & _); congruence).
  - apply Hno; [done| |done]. by intros (? & ? & ? & ? & _).
Qed.

(** ** Filter types *)

(** The declaration of a filter type other than the marker succeeds exactly
    when every field instance of the body is of a declared field class and
    Meta.model is a Django model. A field instance without [_meta] is an
    AttributeError, raised before the model is looked at. Otherwise an unset
    model is a ValueError and a class that is no model a TypeError, both
    naming the filter type and the latter the class; any other object is
    the AttributeError of reading its [__name__]. The names that were
    assigned do not depend on the model. *)
Theorem DynamicFilterMetaClass_new_outcome cls_name bases attrs model hm hf :
  is_filter_marker bases = false →
  let r := DynamicFilterMetaClass_new cls_name bases attrs model hm hf in
  (returns r.1 = true ↔ declared_only attrs ∧ ∃ m, model = ModelClass m)
  ∧ (∀ k, (k, ABareField) ∈ attrs → r.1 = Raise (AttributeError "_meta"))
  ∧ (declared_only attrs →
     match model with
     | ModelClass m =>
         ∃ F, r.1 = Ret (mkFilterClass (remaining_attrs attrs) (Some F))
              ∧ filter_name F = cls_name ∧ filter_model F = m
     | OtherClass n =>
         r.1 = Raise (TypeError
                        (cls_name
                         ++ ".Meta.model have to be a valid Django Model, cannot be a "
                         ++ n)%string)
     | OtherValue v =>
         r.1 = Raise (if truthy v then AttributeError "__name__"
                      else ValueError (cls_name ++ ".Meta.model cannot be a null.")%string)
     end)
  ∧ (∀ model', (DynamicFilterMetaClass_new cls_name bases attrs model' hm hf).2 = r.2).
Proof.
  intros Hbases r.
  assert (Hbare : ∀ k, (k, ABareField) ∈ attrs → r.1 = Raise (AttributeError "_meta")).
  { intros k Hin. unfold r, DynamicFilterMetaClass_new.
    pose proof (collect_fields_bare attrs hm k Hin) as Hc.
    destruct (collect_fields attrs hm) as [r0 hm']. cbn in Hc. by subst r0. }
  assert (Hdecl : declared_only attrs →
            r.1 = (m ← check_model cls_name model;
                   Ret (mkFilterClass (remaining_attrs attrs)
                          (Some (mkFilter cls_name m
                                   (OrderedDict
                                      (sort_by (counter_of (collect_fields attrs hm).2 hf)
                                         (body_fields attrs)))))))).
  { intros Hd. unfold r, DynamicFilterMetaClass_new.
    pose proof (collect_fields_declared attrs hm Hd) as Hc.
    destruct (collect_fields attrs hm) as [r0 hm']. cbn in Hc. subst r0.
    by rewrite Hbases. }
  split_and!.
  - split.
    + intros Hret.
      assert (Hd : declared_only attrs).
      { intros k Hin. rewrite (Hbare k Hin) in Hret. discriminate Hret. }
      split; [done|]. rewrite (Hdecl Hd) in Hret.
      destruct model as [m|n|v]; [by eexists|done|].
      unfold check_model in Hret. cbn in Hret. by destruct (truthy v).
    + intros [Hd [m ->]]. by rewrite (Hdecl Hd).
  - exact Hbare.
  - intros Hd. rewrite (Hdecl Hd).
    destruct model as [m|n|v]; cbn; [by eexists|done|].
    unfold check_model. cbn. by destruct (truthy v).
  - intros model'. unfold r. by rewrite !DynamicFilterMetaClass_new_heap.
Qed.

Lemma DynamicFilterMetaClass_new_outcome_witness :
  is_filter_marker ["DynamicFilter"] = false
  ∧ (DynamicFilterMetaClass_new "UserFilter" ["DynamicFilter"]
       (sample_attrs ++ [("extra", ABareField)])
       (ModelClass "User") sample_metas sample_forms).1
    = Raise (AttributeError "_meta")
  ∧ (DynamicFilterMetaClass_new "UserFilter" ["DynamicFilter"] sample_attrs
       (OtherClass "dict") sample_metas sample_forms).1
    = Raise (TypeError
               "UserFilter.Meta.model have to be a valid Django Model, cannot be a dict").
Proof.
  assert (Hb : is_filter_marker ["DynamicFilter"] = false) by reflexivity.
  split; [exact Hb|]. split.
  - destruct (DynamicFilterMetaClass_new_outcome "UserFilter" ["DynamicFilter"]
                (sample_attrs ++ [("extra", ABareField)]) (ModelClass "User")
                sample_metas sample_forms Hb) as (_ & Hbare & _).
    apply (Hbare "extra"). apply elem_of_app. right. by left.
  - destruct (DynamicFilterMetaClass_new_outcome "UserFilter" ["DynamicFilter"]
                sample_attrs (OtherClass "dict") sample_metas sample_forms Hb)
      as (_ & _ & Hout & _).
    exact (Hout sample_attrs_declared).
Defined.

Lemma register_name_cases key f (hm : MetaHeap) l :
  register_name key f hm l = hm l ∨ register_name key f hm l = set_name key (hm l).
Proof.
  unfold register_name. destruct (negb _); [|by left].
  destruct (decide (meta f = l)) as [<-|Hne].
  - right. by rewrite fn_lookup_insert.
  - left. by rewrite fn_lookup_insert_ne.
Qed.

(** A declaration changes nothing of the options of a field class but,
    possibly, the name. *)
Lemma collect_fields_cases attrs (hm : MetaHeap) l :
  (collect_fields attrs hm).2 l = hm l
  ∨ ∃ key, (collect_fields attrs hm).2 l = set_name key (hm l).
Proof.
  revert hm. induction attrs as [|[key [f| |]] attrs IH]; intros hm;
    [by left| |apply IH|by left].
  rewrite collect_fields_cons_field. cbn [snd].
  destruct (IH (register_name key f hm)) as [H1|[key' H1]]; rewrite H1;
    destruct (register_name_cases key f hm l) as [H2|H2]; rewrite H2; eauto.
Qed.

Lemma collect_fields_named attrs (hm : MetaHeap) k f :
  declared_only attrs →
  (∀ k' a, (k', a) ∈ attrs → k' ≠ "") → (k, AField f) ∈ attrs →
  str_set (name ((collect_fields attrs hm).2 (meta f))) = true.
Proof.
  revert hm. induction attrs as [|[key [g| |]] attrs IH]; intros hm Hd Hkeys Hin.
  - by apply elem_of_nil in Hin.
  - apply declared_only_cons in Hd as [_ Hd].
    rewrite collect_fields_cons_field. cbn [snd].
    apply elem_of_cons in Hin as [Heq|Hin].
    + injection Heq as -> ->.
      assert (Hset : str_set (name (register_name key g hm (meta g))) = true).
      { destruct (str_set (name (hm (meta g)))) eqn:Hn.
        - by rewrite register_name_kept.
        - rewrite register_name_unset by done. cbn.
          destruct (String.eqb_spec key ""); [|done].
          exfalso. eapply Hkeys; [by left|done]. }
      by rewrite collect_fields_kept.
    + apply IH; [done| |done]. intros k' a Hin'. apply (Hkeys k' a). by right.
  - apply declared_only_cons in Hd as [_ Hd].
    cbn [collect_fields]. apply elem_of_cons in Hin as [Heq|Hin]; [done|].
    apply IH; [done| |done]. intros k' a Hin'. apply (Hkeys k' a). by right.
  - by apply declared_only_cons in Hd as [Hd _].
Qed.

(** After the declaration of a filter type, whether it succeeded or not,
    every field of the class body that comes before the first field
    instance without [_meta], so every field when there is none, has a
    name, so that its operator key is a string; a name that was set before
    is kept; and of the options of any field class only the name can have
    changed. *)
Theorem declared_fields_are_named cls_name bases pre rest model hm hf :
  declared_only pre →
  (∀ k a, (k, a) ∈ pre → k ≠ "") →
  let hm' := (DynamicFilterMetaClass_new cls_name bases (pre ++ rest) model hm hf).2 in
  (∀ k f, (k, AField f) ∈ pre →
     str_set (name (hm' (meta f))) = true
     ∧ ∃ key, render_operator (hm' (meta f)) = Some key)
  ∧ (∀ l, str_set (name (hm l)) = true → hm' l = hm l)
  ∧ (∀ l, field (hm' l) = field (hm l) ∧ operator (hm' l) = operator (hm l)
          ∧ force_empty (hm' l) = force_empty (hm l)
          ∧ queryset (hm' l) = queryset (hm l)).
Proof.
  intros Hd Hkeys hm'. unfold hm'. rewrite DynamicFilterMetaClass_new_heap. split_and!.
  - intros k f Hin.
    assert (Hset : str_set (name ((collect_fields (pre ++ rest) hm).2 (meta f))) = true).
    { rewrite collect_fields_app_heap by done.
      pose proof (collect_fields_named pre hm k f Hd Hkeys Hin) as Hpre.
      by rewrite collect_fields_kept. }
    split; [done|]. unfold render_operator.
    destruct (negb (str_set (operator _))); [|eauto].
    destruct (name _) as [s|]; [eauto|done].
  - intros l. apply collect_fields_kept.
  - intros l.
    by destruct (collect_fields_cases (pre ++ rest) hm l) as [H|[key H]]; rewrite H.
Qed.

Lemma declared_fields_are_named_witness :
  declared_only sample_attrs
  ∧ (∀ k a, (k, a) ∈ sample_attrs → k ≠ "")
  ∧ (DynamicFilterMetaClass_new "UserFilter" ["DynamicFilter"]
       (sample_attrs ++ [("extra", ABareField)])
       (ModelClass "User") sample_metas sample_forms).1
    = Raise (AttributeError "_meta")
  ∧ render_operator
      ((DynamicFilterMetaClass_new "UserFilter" ["DynamicFilter"]
          (sample_attrs ++ [("extra", ABareField)])
          (ModelClass "User") sample_metas sample_forms).2 (meta age_field))
    = Some "age__gte".
Proof.
  assert (Hkeys : ∀ k a, (k, a) ∈ sample_attrs → k ≠ "").
  { intros k a Hin. unfold sample_attrs in Hin.
    repeat (apply elem_of_cons in Hin as [Heq|Hin]; [by injection Heq as -> _|]).
    by apply elem_of_nil in Hin. }
  split; [exact sample_attrs_declared|]. split; [exact Hkeys|]. split; [reflexivity|].
  destruct (declared_fields_are_named "UserFilter" ["DynamicFilter"] sample_attrs
              [("extra", ABareField)] (ModelClass "User") sample_metas sample_forms
              sample_attrs_declared Hkeys) as [Hnamed _].
  destruct (Hnamed "min_age" age_field) as [_ [key Hkey]]; [right; right; by left|].
  rewrite Hkey. vm_compute in Hkey. exact (eq_sym Hkey).
Defined.

Section StableSort.

Context {A : Type} (key : A → Z).

Lemma insert_by_filter c x l :
  filter (fun y => key y = c) (insert_by key x l)
  = filter (fun y => key y = c) (x :: l).
Proof.
  induction l as [|y l IH]; [done|]. cbn [insert_by].
  destruct (key x <=? key y)%Z eqn:Hle; [done|]. apply Z.leb_gt in Hle.
  rewrite (filter_cons _ y), IH, !(filter_cons _ x), (filter_cons _ y).
  destruct (decide (key x = c)), (decide (key y = c)); try done. lia.
Qed.

(** The sort is stable: elements with the same key keep their order. *)
Lemma sort_by_stable c l :
  filter (fun y => key y = c) (sort_by key l) = filter (fun y => key y = c) l.
Proof.
  induction l as [|x l IH]; [done|]. cbn [sort_by foldr].
  rewrite insert_by_filter, !filter_cons. fold (sort_by key l). by rewrite IH.
Qed.

End StableSort.

(** Fields whose form fields have the same creation counter, such as two
    instances of one field class, are in [base_fields] in the order of the
    declaring attributes. *)
Theorem base_fields_stable cls_name bases attrs m hm hf :
  NoDup attrs.*1 → declared_only attrs → is_filter_marker bases = false →
  ∃ c F,
    (DynamicFilterMetaClass_new cls_name bases attrs (ModelClass m) hm hf).1 = Ret c
    ∧ cls_filter c = Some F
    ∧ ∀ cnt, filter (fun x => counter_of hm hf x = cnt) (base_fields F)
             = filter (fun x => counter_of hm hf x = cnt) (body_fields attrs).
Proof.
  intros Hnd Hd Hbases. eexists _, _.
  split; [by apply DynamicFilterMetaClass_new_ok|]. split; [done|].
  intros cnt. cbn. apply sort_by_stable.
Qed.

Lemma twin_attrs_declared : declared_only twin_attrs.
Proof.
  intros k Hin. unfold twin_attrs in Hin.
  repeat (apply elem_of_cons in Hin as [Heq|Hin]; [discriminate Heq|]).
  by apply elem_of_nil in Hin.
Qed.

Lemma base_fields_stable_witness :
  NoDup twin_attrs.*1
  ∧ declared_only twin_attrs
  ∧ is_filter_marker ["DynamicFilter"] = false
  ∧ counter_of sample_metas sample_forms ("b", status_field)
    = counter_of sample_metas sample_forms ("a", status_field)
  ∧ ∃ c F,
      (DynamicFilterMetaClass_new "TwinFilter" ["DynamicFilter"] twin_attrs
         (ModelClass "User") sample_metas sample_forms).1 = Ret c
      ∧ cls_filter c = Some F
      ∧ base_fields F
        = [("min_age", age_field); ("b", status_field); ("a", status_field)]
      ∧ filter (fun x => counter_of sample_metas sample_forms x = 7%Z) (base_fields F)
        = [("b", status_field); ("a", status_field)].
Proof.
  assert (Hnd : NoDup twin_attrs.*1)
    by (refine (bool_decide_unpack _ _); vm_compute; exact I).
  assert (Hb : is_filter_marker ["DynamicFilter"] = false) by reflexivity.
  split; [exact Hnd|]. split; [exact twin_attrs_declared|]. split; [exact Hb|].
  split; [reflexivity|].
  destruct (base_fields_stable "TwinFilter" ["DynamicFilter"] twin_attrs "User"
              sample_metas sample_forms Hnd twin_attrs_declared Hb)
    as (c & F & Hc & HF & Hstable).
  exists c, F. split; [exact Hc|]. split; [exact HF|]. split.
  - vm_compute in Hc. injection Hc as <-. vm_compute in HF. injection HF as <-.
    reflexivity.
  - rewrite Hstable. reflexivity.
Defined.

(** ** Values of an instance *)

Section StoreFacts.

Variable fname : string.
Variable fields : list (string * FieldInst).
Variable metas : MetaHeap.

Implicit Types (s : Store) (hf : FormHeap).

Local Abbreviation form_of f := (field (metas (meta f))).
Local Abbreviation getv := (get_value fname fields metas).
Local Abbreviation setv := (set_value fname fields).
Local Abbreviation coherent := (Invariants.coherent fname).
Local Abbreviation kept := (Invariants.kept fname).

(** A value that is set is the value that is read: [set_value] stores the
    stored form, and [get_value] then returns what [unstore] makes of it,
    whatever the default and with or without [init]; for a plain field that
    is the value itself. The values of the other names stay. *)
Theorem set_value_get_value name v s f raw :
  od_get fields name = Some f → store (kind f) v = Ret raw →
  let s' := (setv name v s).2 in
  (setv name v s).1 = Ret ()
  ∧ values s' !! name = Some raw
  ∧ (∀ d init, getv name d init s' = (unstore (kind f) (metas (meta f)) raw, s'))
  ∧ (kind f = Plain → ∀ d init, getv name d init s' = (Ret v, s'))
  ∧ (∀ n', n' ≠ name → values s' !! n' = values s !! n').
Proof.
  intros Hf Hstore. unfold set_value. rewrite Hf, Hstore. cbn.
  assert (Hget : ∀ d init,
            getv name d init (write_values fname (<[name := raw]> (values s)) s)
            = (unstore (kind f) (metas (meta f)) raw,
               write_values fname (<[name := raw]> (values s)) s)).
  { intros d init. apply get_value_present; [done|]. cbn. apply lookup_insert_eq. }
  split_and!; [done|apply lookup_insert_eq|exact Hget| |].
  - intros Hplain d init. rewrite Hget. rewrite Hplain in Hstore |- *.
    cbn in Hstore. by simplify_eq.
  - intros n' Hne. by apply lookup_insert_ne.
Qed.

Lemma write_values_coherent vs s : coherent (write_values fname vs s).
Proof.
  unfold Invariants.coherent, write_values. cbn. intros ->. cbn. apply lookup_insert_eq.
Qed.

Lemma write_values_frame vs s k :
  k ≠ fname → data (session (write_values fname vs s)) !! k = data (session s) !! k.
Proof.
  intros Hk. unfold write_values. cbn. destruct (shared s); [|done].
  cbn. by apply lookup_insert_ne.
Qed.

Lemma write_values_modified vs s :
  modified (session (write_values fname vs s)) = modified (session s).
Proof. unfold write_values. cbn. by destruct (shared s). Qed.

Lemma kept_refl s : kept s s.
Proof. by split_and!. Qed.

Lemma kept_trans s1 s2 s3 : kept s1 s2 → kept s2 s3 → kept s1 s3.
Proof.
  intros (Hc1 & Hf1 & Hm1 & Hs1) (Hc2 & Hf2 & Hm2 & Hs2). split_and!.
  - auto.
  - intros k Hk. by rewrite Hf2, Hf1.
  - by rewrite Hm2.
  - by rewrite Hs2.
Qed.

Lemma kept_write_values vs s : kept s (write_values fname vs s).
Proof.
  split_and!.
  - intros _. apply write_values_coherent.
  - intros k Hk. by apply write_values_frame.
  - apply write_values_modified.
  - done.
Qed.

Lemma set_value_kept name v s : kept s (setv name v s).2.
Proof.
  unfold set_value. destruct (od_get fields name) as [f|]; [|apply kept_refl].
  destruct (store (kind f) v); [apply kept_write_values|apply kept_refl].
Qed.

Lemma get_value_kept name d init s : kept s (getv name d init s).2.
Proof.
  destruct (getv name d init s) as [r s'] eqn:Hget.
  apply get_value_inv in Hget as [->|(_ & raw & ->)];
    [apply kept_refl|apply kept_write_values].
Qed.

Lemma set_values_kept items s : kept s (set_values fname fields items s).2.
Proof.
  revert s. induction items as [|[name v] items IH]; intros s; [apply kept_refl|].
  cbn [set_values]. pose proof (set_value_kept name v s) as Hk.
  destruct (setv name v s) as [[[]|e] s1]; [|done].
  eapply kept_trans; [exact Hk|apply IH].
Qed.

Lemma materialize_kept todo ffs s hf :
  kept s (materialize fname fields metas todo ffs s hf).1.2.
Proof.
  revert ffs s hf. induction todo as [|[name f] todo IH]; intros ffs s hf;
    [apply kept_refl|].
  cbn [materialize]. pose proof (get_value_kept name (initial (hf (form_of f))) true s) as Hk.
  destruct (getv name (initial (hf (form_of f))) true s) as [[v|e] s1]; [|done].
  eapply kept_trans; [exact Hk|apply IH].
Qed.

(** The loop over the fields makes the form field of every field optional,
    keeps every creation counter, and leaves the form fields of other
    addresses as they are. *)
Lemma materialize_forms todo ffs s hf ffs' s' hf' :
  materialize fname fields metas todo ffs s hf = (Ret ffs', s', hf') →
  (∀ n f, (n, f) ∈ todo → required (hf' (form_of f)) = false)
  ∧ (∀ l, creation_counter (hf' l) = creation_counter (hf l))
  ∧ (∀ l, (∀ n f, (n, f) ∈ todo → form_of f ≠ l) → hf' l = hf l)
  ∧ (∀ l, required (hf l) = false → required (hf' l) = false).
Proof.
  revert ffs s hf. induction todo as [|[name f] todo IH]; intros ffs s hf Hmat.
  - cbn in Hmat. simplify_eq. split_and!; [|done..].
    intros n f Hin. by apply elem_of_nil in Hin.
  - cbn [materialize] in Hmat.
    destruct (getv name (initial (hf (form_of f))) true s) as [[v|e] s1]; [|done].
    apply IH in Hmat as (Hreq & Hcnt & Hother & Hkeep).
    assert (Hnew : ∀ l, l ≠ form_of f →
              (<[form_of f := mkFormField (creation_counter (hf (form_of f))) v false]> hf) l
              = hf l).
    { intros l Hl. by apply fn_lookup_insert_ne. }
    split_and!.
    + intros n g Hin. apply elem_of_cons in Hin as [Heq|Hin]; [|by apply (Hreq n g)].
      injection Heq as -> ->. apply Hkeep. by rewrite fn_lookup_insert.
    + intros l. rewrite Hcnt. destruct (decide (l = form_of f)) as [->|Hl].
      * by rewrite fn_lookup_insert.
      * by rewrite Hnew.
    + intros l Hl. rewrite Hother.
      * apply Hnew. intros ->. apply (Hl name f); [by left|done].
      * intros n g Hin. apply (Hl n g). by right.
    + intros l Hl. apply Hkeep. destruct (decide (l = form_of f)) as [->|Hne].
      * by rewrite fn_lookup_insert.
      * by rewrite Hnew.
Qed.

(** Setting the items of a dict: every value is stored in its stored form,
    and the values of the other names stay. *)
Lemma set_values_spec items s s' :
  set_values fname fields items s = (Ret (), s') → NoDup items.*1 →
  (∀ n v, (n, v) ∈ items →
     ∃ f raw, od_get fields n = Some f ∧ store (kind f) v = Ret raw
              ∧ values s' !! n = Some raw)
  ∧ (∀ k, k ∉ items.*1 → values s' !! k = values s !! k).
Proof.
  revert s. induction items as [|[name v] items IH]; intros s Hset Hnd.
  - cbn in Hset. simplify_eq. split; [|done].
    intros n v Hin. by apply elem_of_nil in Hin.
  - cbn in Hnd. apply NoDup_cons in Hnd as [Hname Hnd]. cbn [set_values] in Hset.
    unfold set_value in Hset.
    destruct (od_get fields name) as [f|] eqn:Hf; [|done].
    destruct (store (kind f) v) as [raw|e] eqn:Hraw; [|done].
    destruct (IH _ Hset Hnd) as [Hitems Hrest]. split.
    + intros n v' Hin. apply elem_of_cons in Hin as [Heq|Hin]; [|by apply Hitems].
      injection Heq as -> ->. exists f, raw. split_and!; [done..|].
      rewrite Hrest by done. cbn. apply lookup_insert_eq.
    + intros k Hk. cbn in Hk. apply not_elem_of_cons in Hk as [Hne Hk].
      rewrite Hrest by done. cbn. by apply lookup_insert_ne.
Qed.

Lemma materialize_app todo1 todo2 ffs s hf :
  materialize fname fields metas (todo1 ++ todo2) ffs s hf
  = match materialize fname fields metas todo1 ffs s hf with
    | (Ret ffs', s', hf') => materialize fname fields metas todo2 ffs' s' hf'
    | (Raise e, s', hf') => (Raise e, s', hf')
    end.
Proof.
  revert ffs s hf. induction todo1 as [|[name f] todo1 IH]; intros ffs s hf; [done|].
  cbn [materialize app].
  destruct (getv name (initial (hf (form_of f))) true s) as [[v|e] s1]; [apply IH|done].
Qed.

End StoreFacts.

Lemma set_value_get_value_witness :
  od_get (base_fields sample_filter) "status" = Some status_field
  ∧ store (kind status_field) (VStr "open") = Ret (VStr "open")
  ∧ get_value "UserFilter" (base_fields sample_filter) sample_registered "status" VNone false
      (set_value "UserFilter" (base_fields sample_filter) "status" (VStr "open")
         single_store).2
    = (Ret (VStr "open"),
       (set_value "UserFilter" (base_fields sample_filter) "status" (VStr "open")
          single_store).2).
Proof.
  assert (H1 : od_get (base_fields sample_filter) "status" = Some status_field)
    by reflexivity.
  assert (H2 : store (kind status_field) (VStr "open") = Ret (VStr "open")) by reflexivity.
  split; [exact H1|]. split; [exact H2|].
  destruct (set_value_get_value "UserFilter" (base_fields sample_filter) sample_registered
              "status" (VStr "open") single_store status_field (VStr "open") H1 H2)
    as (_ & _ & _ & Hplain & _).
  exact (Hplain eq_refl VNone false).
Defined.

(** ** Constructed instances *)

Lemma resolve_state_kept fname req sess :
  coherent fname (resolve_state fname req sess).2
  ∧ (∀ k, k ≠ fname →
       data (session (resolve_state fname req sess).2) !! k = data sess !! k).
Proof.
  unfold resolve_state, session_contains, session_get, coherent.
  destruct (data sess !! fname) as [vs|] eqn:Hentry.
  - rewrite bool_decide_true by eauto. cbn.
    case_bool_decide; cbn; (split; [done|]); [|done].
    intros k Hk. by apply lookup_delete_ne.
  - rewrite bool_decide_false by (by intros [? ?]). by cbn.
Qed.

Lemma write_back_frame fname s k :
  k ≠ fname → data (session (write_back fname s)) !! k = data (session s) !! k.
Proof. intros Hk. cbn. by apply lookup_insert_ne. Qed.

Section InstanceFacts.

Variable clean : list (string * FormField) → list (string * string)
                 → option (list (string * PyVal)).

Implicit Types (F : Filter) (hm : MetaHeap) (hf : FormHeap)
               (req : Request) (sess : Session).

(** The store that a construction leaves, whether it returns or raises, is
    a store that the loop over the fields or the setting of the cleaned data
    left, written back if the construction returned. *)
Lemma init_store F hm hf req sess :
  ∃ s, kept (filter_name F) (resolve_state (filter_name F) req sess).2 s
       ∧ ((init clean F hm hf req sess).2 = s
          ∧ returns (init clean F hm hf req sess).1 = false
          ∨ (init clean F hm hf req sess).2 = write_back (filter_name F) s
            ∧ returns (init clean F hm hf req sess).1 = true).
Proof.
  unfold init.
  destruct (resolve_state (filter_name F) req sess) as [[fi ir] s0]. cbn [snd].
  pose proof (materialize_kept (filter_name F) (base_fields F) hm (base_fields F) [] s0 hf)
    as Hk1.
  destruct (materialize (filter_name F) (base_fields F) hm (base_fields F) [] s0 hf)
    as [[[ffs|e] s1] hf1]; cbn in Hk1; [|exists s1; split; [done|by left]].
  destruct (bool_decide (method req = "POST") && negb ir);
    [|exists s1; split; [done|by right]].
  destruct (clean _ (POST req)) as [cd|]; [|exists s1; split; [done|by right]].
  pose proof (set_values_kept (filter_name F) (base_fields F) cd s1) as Hk2.
  destruct (set_values (filter_name F) (base_fields F) cd s1) as [[[]|e] s2];
    cbn in Hk2; exists s2; (split; [by eapply kept_trans|]); [by right|by left].
Qed.

Lemma init_session_kept F hm hf req sess :
  (∀ k, k ≠ filter_name F →
     data (session (init clean F hm hf req sess).2) !! k = data sess !! k)
  ∧ (returns (init clean F hm hf req sess).1 = true →
     modified (session (init clean F hm hf req sess).2) = true
     ∧ shared (init clean F hm hf req sess).2 = true
     ∧ data (session (init clean F hm hf req sess).2) !! filter_name F
       = Some (values (init clean F hm hf req sess).2)).
Proof.
  destruct (resolve_state_kept (filter_name F) req sess) as [_ Hframe0].
  destruct (init_store F hm hf req sess)
    as (s & (_ & Hframe & _ & _) & [[-> Hret]|[-> Hret]]); rewrite Hret.
  - split; [|done]. intros k Hk. by rewrite Hframe, Hframe0.
  - split.
    + intros k Hk. by rewrite write_back_frame, Hframe, Hframe0.
    + intros _. split_and!; [done..|]. cbn. apply lookup_insert_eq.
Qed.

(** A construction touches no session entry but the filter's own, whether
    it returns or raises; and when it returns, the session is marked as
    modified and its entry for the filter is the [values] of the instance. *)
Theorem init_session_frame F hm hf req sess :
  let st := (init clean F hm hf req sess).2 in
  (∀ k, k ≠ filter_name F → data (session st) !! k = data sess !! k)
  ∧ (returns (init clean F hm hf req sess).1 = true →
     modified (session st) = true ∧ shared st = true
     ∧ data (session st) !! filter_name F = Some (values st)).
Proof. cbn zeta. apply init_session_kept. Qed.

(** After a construction that returned, [values] is the dict that the
    session holds: whatever is set afterwards is in the session entry, and
    the other entries and the dirty flag stay. *)
Theorem values_are_the_session_entry F hm hf req sess inst st items :
  init clean F hm hf req sess = (Ret inst, st) →
  let s' := (set_values (filter_name F) (base_fields F) items st).2 in
  data (session st) !! filter_name F = Some (values st)
  ∧ data (session s') !! filter_name F = Some (values s')
  ∧ (∀ k, k ≠ filter_name F → data (session s') !! k = data (session st) !! k)
  ∧ modified (session s') = true.
Proof.
  intros Hinit s'.
  destruct (init_session_kept F hm hf req sess) as [_ Hret].
  rewrite Hinit in Hret. destruct (Hret eq_refl) as (Hmod & Hshared & Hentry).
  destruct (set_values_kept (filter_name F) (base_fields F) items st)
    as (Hcoh & Hframe & Hmod' & Hshared').
  fold s' in Hcoh, Hframe, Hmod', Hshared'.
  split_and!; [done| |done|by rewrite Hmod'].
  apply Hcoh; [by intros _|by rewrite Hshared'].
Qed.

(** A reset on a session that has an entry is a first visit on the session
    without the entry: it leaves the same store, and fails when that one
    fails. What is submitted with a reset is ignored, and the form is
    unbound. *)
Theorem reset_is_first_visit F hm hf req sess :
  is_Some (data sess !! filter_name F) →
  GET req !! "reset_filter" = Some (filter_name F) →
  let r := init clean F hm hf req sess in
  let r' := init clean F hm hf (mkRequest "GET" (GET req) [])
              (session_del sess (filter_name F)) in
  r.2 = r'.2
  ∧ (∀ e, r.1 = Raise e ↔ r'.1 = Raise e)
  ∧ (∀ inst, r.1 = Ret inst →
       first_init inst = false ∧ is_reset inst = true ∧ self_form inst = Unbound
       ∧ r'.1 = Ret (mkInstance (self_name inst) true true (self_fields inst)
                       (self_metas inst) (self_forms inst) Unbound)).
Proof.
  intros Hentry Hreset. cbn zeta. unfold init, resolve_state, session_contains. cbn.
  rewrite (bool_decide_true _ Hentry), (bool_decide_true _ Hreset).
  rewrite lookup_delete_eq.
  rewrite (bool_decide_false (is_Some None)) by (by intros [? ?]). cbn.
  destruct (materialize (filter_name F) (base_fields F) hm (base_fields F) []
              (mkStore (session_del sess (filter_name F)) ∅ false) hf)
    as [[[ffs|e] s1] hf1]; cbn.
  - rewrite andb_false_r. cbn. split_and!; [done|done|].
    intros inst [= <-]. done.
  - split_and!; done.
Qed.

(** What a returned instance is made of. *)
Lemma init_instance F hm hf req sess inst st :
  init clean F hm hf req sess = (Ret inst, st) →
  ∃ ffs s1 hf1,
    materialize (filter_name F) (base_fields F) hm (base_fields F) []
      (resolve_state (filter_name F) req sess).2 hf = (Ret ffs, s1, hf1)
    ∧ self_name inst = filter_name F ∧ self_fields inst = base_fields F
    ∧ self_metas inst = hm ∧ self_forms inst = hf1.
Proof.
  unfold init.
  destruct (resolve_state (filter_name F) req sess) as [[fi ir] s0]. cbn [snd].
  destruct (materialize (filter_name F) (base_fields F) hm (base_fields F) [] s0 hf)
    as [[[ffs|e] s1] hf1]; [|done].
  intros Hinit. exists ffs, s1, hf1. split; [done|].
  destruct (bool_decide (method req = "POST") && negb ir).
  - destruct (clean _ (POST req)) as [cd|]; [|by simplify_eq].
    destruct (set_values (filter_name F) (base_fields F) cd s1) as [[[]|e] s2];
      by simplify_eq.
  - by simplify_eq.
Qed.

(** A submission that validates: the session entry has, for every cleaned
    value, the stored form of that value under the name of its field. *)
Theorem valid_submission_persists F hm hf req sess inst st d cd :
  init clean F hm hf req sess = (Ret inst, st) →
  self_form inst = Bound d (Some cd) → NoDup cd.*1 →
  method req = "POST" ∧ is_reset inst = false
  ∧ data (session st) !! filter_name F = Some (values st)
  ∧ (∀ n v, (n, v) ∈ cd →
       ∃ f raw, od_get (base_fields F) n = Some f ∧ store (kind f) v = Ret raw
                ∧ values st !! n = Some raw).
Proof.
  intros Hinit Hform Hnd.
  destruct (init_inv clean _ _ _ _ _ _ _ Hinit)
    as (ffs & s1 & hf1 & s2 & Hmat & _ & Hir & -> & Hcases).
  destruct Hcases as [(_ & Hf & _)|(Hsub & [[Hf _]|(cd' & Hf & Hset)])];
    rewrite Hf in Hform; try discriminate Hform.
  injection Hform as _ <-.
  apply andb_true_iff in Hsub as [Hpost Hnr].
  apply bool_decide_eq_true in Hpost. apply negb_true_iff in Hnr.
  split_and!; [done|by rewrite Hir| |].
  - cbn. apply lookup_insert_eq.
  - cbn [write_back values].
    by destruct (set_values_spec _ _ _ _ _ Hset Hnd) as [Hitems _].
Qed.

(** In a returned instance the form field of every field is optional; the
    form fields keep their creation counters; and a form field that belongs
    to no field of the filter is as declared. *)
Theorem init_form_fields F hm hf req sess inst st :
  init clean F hm hf req sess = (Ret inst, st) →
  (∀ n f, (n, f) ∈ base_fields F →
     required (self_forms inst (field (hm (meta f)))) = false)
  ∧ (∀ l, creation_counter (self_forms inst l) = creation_counter (hf l))
  ∧ (∀ l, (∀ n f, (n, f) ∈ base_fields F → field (hm (meta f)) ≠ l) →
          self_forms inst l = hf l).
Proof.
  intros Hinit.
  destruct (init_instance _ _ _ _ _ _ _ Hinit) as (ffs & s1 & hf1 & Hmat & _ & _ & _ & ->).
  by destruct (materialize_forms _ _ _ _ _ _ _ _ _ _ Hmat) as (? & ? & ? & _).
Qed.

(** A retrieval request, not a reset, on a session whose entry has a value
    that can be unstored for every field: the construction returns, is no
    first init, and leaves the values and the data of the session as they
    were; the session is marked as modified all the same. *)
Theorem retrieval_is_idempotent F hm hf req sess entry :
  NoDup (base_fields F).*1 →
  data sess !! filter_name F = Some entry →
  GET req !! "reset_filter" ≠ Some (filter_name F) →
  method req ≠ "POST" →
  (∀ n f, (n, f) ∈ base_fields F →
     ∃ raw, entry !! n = Some raw
            ∧ returns (unstore (kind f) (hm (meta f)) raw) = true) →
  ∃ inst st,
    init clean F hm hf req sess = (Ret inst, st)
    ∧ first_init inst = false ∧ is_reset inst = false ∧ self_form inst = Unbound
    ∧ values st = entry
    ∧ data (session st) = data sess
    ∧ modified (session st) = true.
Proof.
  intros Hnd Hentry Hreset Hget Hok.
  destruct (materialize_present (filter_name F) (base_fields F) hm (base_fields F) []
              (mkStore sess entry true) hf) as (ffs & hf1 & Hmat).
  { intros n f Hin. split; [by apply od_get_elem|]. by apply Hok. }
  pose proof (init_no_submission clean F hm hf req sess ffs (mkStore sess entry true) hf1)
    as Hinit.
  cbn zeta in Hinit.
  rewrite (resolve_state_continue _ _ _ _ Hentry Hreset) in Hinit.
  rewrite resolve_state_flags in Hinit. cbn [fst snd] in Hinit.
  rewrite (bool_decide_false _ Hget), (bool_decide_false _ Hreset) in Hinit.
  specialize (Hinit Hmat eq_refl).
  eexists _, _. split; [exact Hinit|]. cbn.
  unfold session_contains. rewrite Hentry.
  rewrite bool_decide_true by eauto.
  split_and!; [done..| |done]. by apply insert_id.
Qed.

(** On a session without an entry, a declared initial value that cannot be
    stored makes the construction raise the error of [store]; the session
    is left as it was, without an entry, so that the next request meets the
    same error. *)
Theorem unstorable_initial_fails F hm hf req sess pre n f post e :
  NoDup (base_fields F).*1 →
  data sess !! filter_name F = None →
  base_fields F = pre ++ (n, f) :: post →
  (∀ n' f', (n', f') ∈ pre →
     returns (store (kind f') (initial (hf (field (hm (meta f')))))) = true) →
  store (kind f) (initial (hf (field (hm (meta f))))) = Raise e →
  ∃ st, init clean F hm hf req sess = (Raise e, st) ∧ session st = sess.
Proof.
  intros Hnd Hfresh Hfields Hpre Hraise.
  assert (Hget : ∀ n' f', (n', f') ∈ base_fields F → od_get (base_fields F) n' = Some f').
  { intros n' f' Hin. by apply od_get_elem. }
  assert (Hnd' : NoDup pre.*1 ∧ n ∉ pre.*1).
  { rewrite Hfields, fmap_app in Hnd. cbn in Hnd.
    apply NoDup_app in Hnd as (Hp & Hdisj & _). split; [done|].
    intros Hin. apply (Hdisj n Hin). by left. }
  destruct Hnd' as [Hndpre Hn].
  destruct (materialize_fresh (filter_name F) (base_fields F) hm hf pre []
              (mkStore sess ∅ false) hf)
    as (ffs & s1 & hf1 & Hmat & Hinit1 & _ & Hrest & Hshared & Hsess).
  { intros n' f' Hin. apply Hget. rewrite Hfields. apply elem_of_app. by left. }
  { done. }
  { intros; apply lookup_empty. }
  { done. }
  { done. }
  cbn in Hshared. specialize (Hsess eq_refl). cbn in Hsess.
  assert (Hm : materialize (filter_name F) (base_fields F) hm (base_fields F) []
                 (mkStore sess ∅ false) hf = (Raise e, s1, hf1)).
  { transitivity (materialize (filter_name F) (base_fields F) hm (pre ++ (n, f) :: post) []
                    (mkStore sess ∅ false) hf); [by rewrite <- Hfields|].
    rewrite materialize_app, Hmat. cbn [materialize].
    unfold get_value, set_value.
    rewrite (Hget n f) by (rewrite Hfields; apply elem_of_app; right; by left).
    rewrite (Hrest n Hn). cbn [values]. rewrite lookup_empty.
    by rewrite Hinit1, Hraise. }
  unfold init. rewrite (surjective_pairing (resolve_state (filter_name F) req sess)).
  rewrite (surjective_pairing (resolve_state (filter_name F) req sess).1).
  rewrite (resolve_state_fresh _ req _ Hfresh). rewrite Hm. by exists s1.
Qed.

End InstanceFacts.

Lemma values_are_the_session_entry_witness :
  ∃ inst st,
    init sample_clean sample_filter sample_registered sample_forms
      get_request empty_session = (Ret inst, st)
    ∧ let s' := (set_values "UserFilter" (base_fields sample_filter)
                   [("status", VStr "open")] st).2 in
      data (session s') !! "UserFilter" = Some (values s')
      ∧ values s' !! "status" = Some (VStr "open").
Proof.
  destruct (init sample_clean sample_filter sample_registered sample_forms
              get_request empty_session) as [[inst|e] st] eqn:Hinit;
    [|vm_compute in Hinit; discriminate Hinit].
  exists inst, st. split; [reflexivity|].
  destruct (values_are_the_session_entry sample_clean sample_filter sample_registered
              sample_forms get_request empty_session inst st [("status", VStr "open")]
              Hinit) as (_ & Hentry & _).
  cbn zeta. split; [exact Hentry|].
  assert (Hst : st = (init sample_clean sample_filter sample_registered sample_forms
                        get_request empty_session).2) by (by rewrite Hinit).
  rewrite Hst. vm_compute. reflexivity.
Defined.

Lemma reset_is_first_visit_witness :
  is_Some (data visited_session !! filter_name sample_filter)
  ∧ GET reset_request !! "reset_filter" = Some (filter_name sample_filter)
  ∧ (init sample_clean sample_filter sample_registered sample_forms
       reset_request visited_session).2
    = (init sample_clean sample_filter sample_registered sample_forms
         (mkRequest "GET" (GET reset_request) [])
         (session_del visited_session (filter_name sample_filter))).2.
Proof.
  assert (H1 : is_Some (data visited_session !! filter_name sample_filter))
    by (vm_compute; eauto).
  assert (H2 : GET reset_request !! "reset_filter" = Some (filter_name sample_filter))
    by reflexivity.
  split; [exact H1|]. split; [exact H2|].
  exact (proj1 (reset_is_first_visit sample_clean sample_filter sample_registered
                  sample_forms reset_request visited_session H1 H2)).
Defined.

Lemma valid_submission_persists_witness :
  ∃ inst st d cd,
    init sample_clean sample_filter sample_registered sample_forms
      good_post_request visited_session = (Ret inst, st)
    ∧ self_form inst = Bound d (Some cd)
    ∧ NoDup cd.*1
    ∧ ("status", VStr "abc") ∈ cd
    ∧ values st !! "status" = Some (VStr "abc").
Proof.
  assert (Hres : match (init sample_clean sample_filter sample_registered sample_forms
                          good_post_request visited_session).1 with
                 | Ret i => self_form i
                            = Bound [("status", "abc")]
                                (Some [("min_age", VStr ""); ("owner", VStr "");
                                       ("status", VStr "abc")])
                 | Raise _ => False
                 end) by (vm_compute; reflexivity).
  destruct (init sample_clean sample_filter sample_registered sample_forms
              good_post_request visited_session) as [[inst|e] st] eqn:Hinit;
    cbn in Hres; [|destruct Hres].
  assert (Hnd : NoDup [("min_age", VStr ""); ("owner", VStr "");
                       ("status", VStr "abc")].*1)
    by (refine (bool_decide_unpack _ _); vm_compute; exact I).
  assert (Hin : ("status", VStr "abc")
                ∈ [("min_age", VStr ""); ("owner", VStr ""); ("status", VStr "abc")])
    by (right; right; by left).
  eexists inst, st, _, _. split; [reflexivity|]. split; [exact Hres|].
  split; [exact Hnd|]. split; [exact Hin|].
  destruct (valid_submission_persists sample_clean sample_filter sample_registered
              sample_forms good_post_request visited_session inst st _ _ Hinit Hres Hnd)
    as (_ & _ & _ & Hitems).
  destruct (Hitems _ _ Hin) as (f & raw & Hf & Hraw & Hv).
  vm_compute in Hf. injection Hf as <-. vm_compute in Hraw. injection Hraw as <-.
  exact Hv.
Defined.

Lemma init_form_fields_witness :
  ∃ inst st,
    init sample_clean sample_filter sample_registered sample_forms
      get_request empty_session = (Ret inst, st)
    ∧ required (sample_forms 0%nat) = true
    ∧ required (self_forms inst 0%nat) = false.
Proof.
  destruct (init sample_clean sample_filter sample_registered sample_forms
              get_request empty_session) as [[inst|e] st] eqn:Hinit;
    [|vm_compute in Hinit; discriminate Hinit].
  exists inst, st. split; [reflexivity|]. split; [reflexivity|].
  destruct (init_form_fields sample_clean sample_filter sample_registered sample_forms
              get_request empty_session inst st Hinit) as (Hreq & _).
  apply (Hreq "status" status_field). right; right; by left.
Defined.

Lemma retrieval_is_idempotent_witness :
  NoDup (base_fields sample_filter).*1
  ∧ GET get_request !! "reset_filter" ≠ Some (filter_name sample_filter)
  ∧ method get_request ≠ "POST"
  ∧ ∃ entry inst st,
      data visited_session !! filter_name sample_filter = Some entry
      ∧ init sample_clean sample_filter sample_registered sample_forms
          get_request visited_session = (Ret inst, st)
      ∧ data (session st) = data visited_session.
Proof.
  assert (H1 : NoDup (base_fields sample_filter).*1)
    by (refine (bool_decide_unpack _ _); vm_compute; exact I).
  assert (H3 : GET get_request !! "reset_filter" ≠ Some (filter_name sample_filter))
    by discriminate.
  assert (H4 : method get_request ≠ "POST") by discriminate.
  split; [exact H1|]. split; [exact H3|]. split; [exact H4|].
  destruct (data visited_session !! filter_name sample_filter) as [entry|] eqn:Hentry;
    [|vm_compute in Hentry; discriminate Hentry].
  assert (Hok : ∀ n f, (n, f) ∈ base_fields sample_filter →
            ∃ raw, entry !! n = Some raw
                   ∧ returns (unstore (kind f) (sample_registered (meta f)) raw) = true).
  { assert (He : Some entry = data visited_session !! filter_name sample_filter)
      by (by rewrite Hentry).
    vm_compute in He. injection He as ->.
    apply sample_fields_cases; eexists; (split; [vm_compute; reflexivity|reflexivity]). }
  destruct (retrieval_is_idempotent sample_clean sample_filter sample_registered
              sample_forms get_request visited_session entry H1 Hentry H3 H4 Hok)
    as (inst & st & Hinit & _ & _ & _ & _ & Hdata & _).
  exists entry, inst, st. split; [reflexivity|]. split; [exact Hinit|exact Hdata].
Defined.

Lemma unstorable_initial_fails_witness :
  NoDup (base_fields sample_filter).*1
  ∧ data empty_session !! filter_name sample_filter = None
  ∧ store (kind owner_field)
      (initial (key_initial_forms (field (sample_registered (meta owner_field)))))
    = Raise (AttributeError "pk")
  ∧ ∃ st, init sample_clean sample_filter sample_registered key_initial_forms
            get_request empty_session = (Raise (AttributeError "pk"), st)
          ∧ session st = empty_session.
Proof.
  assert (H1 : NoDup (base_fields sample_filter).*1)
    by (refine (bool_decide_unpack _ _); vm_compute; exact I).
  assert (H2 : data empty_session !! filter_name sample_filter = None) by reflexivity.
  assert (H3 : base_fields sample_filter
               = [("min_age", age_field)] ++ ("owner", owner_field)
                 :: [("status", status_field)]) by reflexivity.
  assert (H4 : ∀ n' f', (n', f') ∈ [("min_age", age_field)] →
            returns (store (kind f')
                       (initial (key_initial_forms (field (sample_registered (meta f'))))))
            = true).
  { intros n' f' Hin. apply list_elem_of_singleton in Hin. by injection Hin as -> ->. }
  assert (H5 : store (kind owner_field)
                 (initial (key_initial_forms
                             (field (sample_registered (meta owner_field)))))
               = Raise (AttributeError "pk")) by reflexivity.
  split; [exact H1|]. split; [exact H2|]. split; [exact H5|].
  exact (unstorable_initial_fails sample_clean sample_filter sample_registered
           key_initial_forms get_request empty_session _ _ _ _ _ H1 H2 H3 H4 H5).
Defined.

(** ** The query *)

(** When the kwargs can be rendered and every field has an operator key
    that is a string, [render_query] returns the full scope of the model
    with the keyword arguments of the call applied first, if there are any,
    and then the kwargs of the filter, if there are any; it writes nothing.
    So a filter that is not active adds no filter of its own. *)
Theorem render_query_scope F self extra s kw :
  (render_query_kwargs self s).1 = Ret kw →
  (∀ n f, (n, f) ∈ self_fields self →
     is_Some (render_operator (self_metas self (meta f)))) →
  render_query F self extra s
  = (Ret (mkQuerySet (filter_model F)
            ((if bool_decide (extra = ∅) then [] else [kmap Some extra])
             ++ (if bool_decide (kw = ∅) then [] else [kw]))), s)
  ∧ ((is_active self s).1 = Ret false ↔ kw = ∅).
Proof.
  intros Hkw Hnamed.
  assert (Hnone : kw !! None = None).
  { destruct (kw !! None) as [v|] eqn:Hv; [|done].
    unfold render_query_kwargs in Hkw.
    destruct (render_loop_entries _ _ _ _ _ _ _ Hkw) as (Hsound & _).
    destruct (Hsound None v Hv) as [Hold|(n & f & cur & Hin & _ & Hop & _)].
    - by rewrite lookup_empty in Hold.
    - destruct (Hnamed n f Hin) as [key Hkey]. congruence. }
  assert (Hframe : (render_query_kwargs self s).2 = s) by apply render_loop_frame.
  split.
  - unfold render_query. destruct (render_query_kwargs self s) as [r s'].
    cbn in Hkw, Hframe. subst r s'. f_equal.
    assert (Hextra : qs_filter (objects (filter_model F)) (kmap Some extra)
                     = Ret (mkQuerySet (filter_model F) [kmap Some extra])).
    { unfold qs_filter. rewrite decide_False; [done|].
      intros [v Hv]. apply lookup_kmap_Some in Hv as (i & Hi & _); [done|apply _]. }
    assert (Hown : ∀ q, qs_filter q kw
                        = Ret (mkQuerySet (qs_model q) (qs_filters q ++ [kw]))).
    { intros q. unfold qs_filter. rewrite decide_False; [done|].
      rewrite Hnone. by intros [? ?]. }
    destruct (bool_decide (extra = ∅)); [|rewrite Hextra]; cbn;
      destruct (bool_decide (kw = ∅)); cbn; by rewrite ?Hown.
  - unfold is_active. destruct (render_query_kwargs self s) as [r s'].
    cbn in Hkw. subst r. cbn. case_bool_decide; cbn; split; done.
Qed.

Lemma render_query_scope_witness :
  (render_query_kwargs (single_instance true) single_store).1
  = Ret {[ Some "status" := VStr "" ]}
  ∧ render_query sample_filter (single_instance true) ∅ single_store
    = (Ret (mkQuerySet "User" [ {[ Some "status" := VStr "" ]} ]), single_store).
Proof.
  assert (H1 : (render_query_kwargs (single_instance true) single_store).1
               = Ret {[ Some "status" := VStr "" ]}) by (vm_compute; reflexivity).
  assert (H2 : ∀ n f, (n, f) ∈ self_fields (single_instance true) →
            is_Some (render_operator (self_metas (single_instance true) (meta f)))).
  { intros n f _. cbn. eauto. }
  split; [exact H1|].
  exact (proj1 (render_query_scope sample_filter (single_instance true) ∅ single_store
                  _ H1 H2)).
Defined.
